(** * The job worker: dispatch, lifecycle records and bounded history

    A shallow embedding of [processor.js] (class [JobProcessor] and the
    module-level [jobHistory] map), of the health check of [health.js] and
    of the routes of [server.js] that call them, with the properties the
    specification states about the processor and further properties of the
    code.

    Conventions of the embedding.
    - A JavaScript value that travels through the worker (payloads,
      downstream responses, handler results) is a [Value].
    - An ISO-8601 timestamp string, as [new Date().toISOString()] makes it,
      is represented by the instant it denotes (milliseconds since the
      epoch): [toISOString] and [new Date(string)] are inverse to each other
      on such instants.
    - The outside world (clock, random generator, downstream service, other
      jobs in flight, the engine's wording of its own errors) is an
      environment [Env] of oracles, read at a logical tick.
    - The output of [console.log] is not modelled: it goes to no state the
      worker reads.  The conversion to a string of a payload field in the
      template literal of such a call is modelled, since it can fault.
    - A string is held in its UTF-8 encoding. *)

From Stdlib Require Import List String Ascii ZArith Lia Bool Arith.
From Stdlib Require Import Permutation Sorted DecimalString.
From Stdlib Require Import PrimInt63 PrimFloat SpecFloat FloatOps.
Import ListNotations.

Local Open Scope string_scope.
Local Open Scope Z_scope.

(* ================================================================== *)
(** ** JavaScript values *)

(** Numbers are the integer-valued ones (counts, durations, timestamps).
    [VIso] is a timestamp string made by [toISOString], kept as the instant
    it denotes; the handlers make such strings for their results, a payload
    holds none.  [VBoxed] is the wrapper object [Object(v)] makes of a
    primitive [v].  An object is the list of its own properties, one entry
    per key. *)
#[warnings="-register-all"]
Inductive Value : Type :=
| VUndefined
| VNull
| VBool (b : bool)
| VNum (n : Z)
| VStr (s : string)
| VIso (instant : Z)
| VArr (items : list Value)
| VObj (fields : list (string * Value))
| VBoxed (v : Value).

Fixpoint assoc {A : Type} (k : string) (l : list (string * A)) : option A :=
  match l with
  | [] => None
  | (k', v) :: rest => if String.eqb k k' then Some v else assoc k rest
  end.

(** [!v], negated: the values JavaScript takes for true in a condition. *)
Definition truthy (v : Value) : bool :=
  match v with
  | VUndefined | VNull => false
  | VBool b => b
  | VNum n => negb (n =? 0)
  | VStr s => negb (String.eqb s "")
  | VIso _ | VArr _ | VObj _ | VBoxed _ => true
  end.

(** [v.name], for a name no prototype defines (every name the handlers
    read from a payload or a response is such a name).  [None] is the
    TypeError of reading a property of [undefined] or [null]. *)
Definition get_prop (v : Value) (name : string) : option Value :=
  match v with
  | VUndefined | VNull => None
  | VObj fields =>
      match assoc name fields with
      | Some x => Some x
      | None => Some VUndefined
      end
  | _ => Some VUndefined
  end.

(** [v?.name] *)
Definition get_prop_opt (v : Value) (name : string) : Value :=
  match get_prop v name with
  | Some x => x
  | None => VUndefined
  end.

(** A byte that continues a code point in UTF-8 ([10xxxxxx]). *)
Definition is_continuation (c : ascii) : bool :=
  (128 <=? nat_of_ascii c)%nat && (nat_of_ascii c <? 192)%nat.

(** The code points of a string: each byte that is not a continuation
    starts one, and takes the continuation bytes that follow it.  The first
    component is the run of continuation bytes at the head, which a
    well-formed string does not have. *)
Fixpoint code_points (bytes : list ascii) : string * list string :=
  match bytes with
  | [] => (EmptyString, [])
  | c :: rest =>
      let (pending, points) := code_points rest in
      if is_continuation c then (String c pending, points)
      else (EmptyString, String c pending :: points)
  end.

Definition chars (s : string) : list Value :=
  let (pending, points) := code_points (list_ascii_of_string s) in
  map VStr (if String.eqb pending "" then points else pending :: points).

(** [s.length], the number of UTF-16 code units: one for a code point of
    up to three bytes, two for one of four bytes (lead byte [11110xxx]). *)
Definition utf16_length (s : string) : nat :=
  List.length
    (filter (fun c => negb (is_continuation c)) (list_ascii_of_string s))
  + List.length
      (filter (fun c => (240 <=? nat_of_ascii c)%nat) (list_ascii_of_string s)).

(** What [for (const x of v)] iterates over: the elements of an array, the
    code points of a string; [None] when [v] is not iterable. *)
Definition iterate (v : Value) : option (list Value) :=
  match v with
  | VArr items => Some items
  | VStr s | VBoxed (VStr s) => Some (chars s)
  | _ => None
  end.

(** [Object(v)], the function that [Object.prototype.constructor] is. *)
Definition Object_ (v : Value) : Value :=
  match v with
  | VUndefined | VNull => VObj []
  | VArr _ | VObj _ | VBoxed _ => v
  | _ => VBoxed v
  end.

(** Whether a value can be converted to a string, as a template literal
    converts it.  An object is converted by a method [toString] or
    [valueOf] that returns a primitive: the inherited [toString] does, but
    an own property [toString] hides it, is no function (a payload is JSON)
    and leaves the inherited [valueOf], which returns the object itself;
    the conversion then raises a TypeError.  An array is converted by
    joining the conversions of its elements. *)
Fixpoint stringifies (v : Value) : bool :=
  match v with
  | VArr items => forallb stringifies items
  | VObj fields =>
      match assoc "toString" fields with
      | Some _ => false
      | None => true
      end
  | _ => true
  end.

(** Decimal rendering of an integer, as a template literal renders it. *)
Definition Z_to_string (z : Z) : string := NilZero.string_of_int (Z.to_int z).

(* ================================================================== *)
(** ** Job records and the history map *)

Inductive Status : Type := processing | completed | failed.

Definition Status_to_string (st : Status) : string :=
  match st with
  | processing => "processing"
  | completed => "completed"
  | failed => "failed"
  end.

(** The object literals [process] hands to [recordJob].  A property the
    literal does not have, or has with value [undefined], is [None]. *)
Record JobRecord : Type := mkJobRecord {
  id : string;
  type : string;
  status : Status;
  startedAt : option Z;
  payload : option Value;
  completedAt : option Z;
  failedAt : option Z;
  duration : option Z;
  result : option Value;
  error : option string
}.

Record JobDescription : Type := mkJob {
  job_type : string;
  job_payload : Value
}.

(** A JavaScript [Map] keeps its entries in insertion order, one per key:
    the head of the list is the entry inserted first. *)
Definition JsMap : Type := list (string * JobRecord).

Definition MAX_HISTORY : nat := 100.

Definition keys (m : JsMap) : list string := map fst m.

Definition values (m : JsMap) : list JobRecord := map snd m.

Definition Map_get (k : string) (m : JsMap) : option JobRecord := assoc k m.

Definition Map_has (k : string) (m : JsMap) : bool :=
  match Map_get k m with Some _ => true | None => false end.

(** [m.set(k, v)]: an existing key keeps its place, a new one goes last. *)
Fixpoint Map_set (k : string) (v : JobRecord) (m : JsMap) : JsMap :=
  match m with
  | [] => [(k, v)]
  | (k', v') :: rest =>
      if String.eqb k k' then (k, v) :: rest else (k', v') :: Map_set k v rest
  end.

Fixpoint Map_delete (k : string) (m : JsMap) : JsMap :=
  match m with
  | [] => []
  | (k', v') :: rest =>
      if String.eqb k k' then rest else (k', v') :: Map_delete k rest
  end.

(** [m.keys().next().value] *)
Definition Map_first_key (m : JsMap) : option string :=
  match m with
  | [] => None
  | (k, _) :: _ => Some k
  end.

(** [recordJob(jobId, data)] on the history map. *)
Definition recordJob (jobId : string) (data : JobRecord) (jobHistory : JsMap)
  : JsMap :=
  let jobHistory := Map_set jobId data jobHistory in
  if (MAX_HISTORY <? List.length jobHistory)%nat then
    match Map_first_key jobHistory with
    | Some oldestKey => Map_delete oldestKey jobHistory
    | None => jobHistory
    end
  else jobHistory.

(* ================================================================== *)
(** ** Errors, the environment and the worker's state *)

(** What [throw] carries: [new Error(message)], the engine's own
    [TypeError]s, and the rejection of a downstream call by axios. *)
Inductive Exn : Type :=
| Error (msg : string)
| TypeError (msg : string)
| AxiosError (msg : string).

(** [error.message] *)
Definition message (e : Exn) : string :=
  match e with
  | Error msg | TypeError msg | AxiosError msg => msg
  end.

(** The run-time faults of the engine that the worker's code can run into;
    the wording of their messages is the engine's. *)
Inductive Fault : Type :=
| DestructureNullish (v : Value)
| NotIterable (v : Value)
| NotCallable (member : string)
| MemberFault (member : string) (arg : Value)
| NotPrimitive (v : Value).

Record Env : Type := mkEnv {
  (** [process.env.UPR_OS_BASE_URL] *)
  UPR_OS_BASE_URL : option string;
  (** the wall clock, as [Date.now()] and [new Date()] read it *)
  clock : nat -> Z;
  (** [Math.random().toString(36).substr(2, 9)] *)
  random36 : nat -> string;
  (** [Math.floor(Math.random() * n)] *)
  random_below : nat -> Z -> Z;
  (** [(Math.random() * 100).toFixed(2)] *)
  random_fixed2 : nat -> string;
  (** [axios.post(url, body)]: the response's [data], or the message of
      the error the call rejects with *)
  http : nat -> string -> Value -> Value + string;
  (** the [recordJob] calls that other [process] calls in flight make
      while this one is suspended at an [await] *)
  others : nat -> list (string * JobRecord);
  (** the message the engine gives a fault *)
  engine_text : Fault -> string
}.

Record State : Type := mkState {
  tick : nat;
  jobHistory : JsMap;
  requests : list (string * Value)
}.

Inductive Completion (A : Type) : Type :=
| Return (a : A)
| Throw (e : Exn).

Arguments Return {A} a.
Arguments Throw {A} e.

Definition M (A : Type) : Type := State -> Completion A * State.

Definition ret {A : Type} (a : A) : M A := fun s => (Return a, s).

Definition throw {A : Type} (e : Exn) : M A := fun s => (Throw e, s).

Definition bind {A B : Type} (m : M A) (k : A -> M B) : M B :=
  fun s =>
    match m s with
    | (Return a, s') => k a s'
    | (Throw e, s') => (Throw e, s')
    end.

(** [try { body } catch (error) { handler }] *)
Definition try_catch {A : Type} (body : M A) (handler : Exn -> M A) : M A :=
  fun s =>
    match body s with
    | (Return a, s') => (Return a, s')
    | (Throw e, s') => handler e s'
    end.

Declare Scope js_scope.
Delimit Scope js_scope with js.
Notation "x <- m ;; k" := (bind m (fun x => k))
  (at level 61, m at next level, right associativity) : js_scope.
Notation "m ;; k" := (bind m (fun _ => k))
  (at level 61, right associativity) : js_scope.
Local Open Scope js_scope.

Definition next (s : State) : State :=
  mkState (S (tick s)) (jobHistory s) (requests s).

Definition set_history (h : JsMap) (s : State) : State :=
  mkState (tick s) h (requests s).

Definition recordJobs (writes : list (string * JobRecord)) (h : JsMap)
  : JsMap :=
  fold_left (fun h w => recordJob (fst w) (snd w) h) writes h.

Section Worker.

Variable env : Env.

Definition default_base_url : string :=
  "https://upr-os-service-191599223867.us-central1.run.app".

Definition OS_BASE_URL : string :=
  match UPR_OS_BASE_URL env with
  | Some url => if String.eqb url "" then default_base_url else url
  | None => default_base_url
  end.

Definition Date_now : M Z :=
  fun s => (Return (clock env (tick s)), next s).

Definition new_Date_toISOString : M Z := Date_now.

Definition Math_random_36 : M string :=
  fun s => (Return (random36 env (tick s)), next s).

Definition Math_random_below (n : Z) : M Z :=
  fun s => (Return (random_below env (tick s) n), next s).

Definition Math_random_fixed2 : M string :=
  fun s => (Return (random_fixed2 env (tick s)), next s).

(** A suspension point: the other jobs in flight run, and write their
    records through [recordJob]. *)
Definition yield : M unit :=
  fun s =>
    (Return tt,
     next (set_history (recordJobs (others env (tick s)) (jobHistory s)) s)).

(** [await m]: the task is suspended whether [m] settles with a value or
    with an error. *)
Definition await {A : Type} (m : M A) : M A :=
  fun s =>
    match m s with
    | (c, s') => (c, snd (yield s'))
    end.

(** [axios.post(url, body)], up to the response's [data]. *)
Definition axios_post (url : string) (body : Value) : M Value :=
  fun s =>
    let s' := mkState (S (tick s)) (jobHistory s) (requests s ++ [(url, body)])%list in
    match http env (tick s) url body with
    | inl data => (Return data, s')
    | inr msg => (Throw (AxiosError msg), s')
    end.

(** [this.recordJob(jobId, data)] *)
Definition recordJobM (jobId : string) (data : JobRecord) : M unit :=
  fun s => (Return tt, set_history (recordJob jobId data (jobHistory s)) s).

(** [jobHistory.get(jobId)?.startedAt] *)
Definition get_startedAt (jobId : string) : M (option Z) :=
  fun s =>
    (Return match Map_get jobId (jobHistory s) with
            | Some job => startedAt job
            | None => None
            end, s).

(** [const { a, b } = payload]: the fault of destructuring [undefined] or
    [null], else the payload itself, whose properties are then read. *)
Definition destructure (v : Value) : M Value :=
  match v with
  | VUndefined | VNull => throw (TypeError (engine_text env (DestructureNullish v)))
  | _ => ret v
  end.

(** [x || y] *)
Definition or_else (x y : Value) : Value := if truthy x then x else y.

(** The values a [for ... of] loop goes through. *)
Definition for_of (v : Value) : M (list Value) :=
  match iterate v with
  | Some items => ret items
  | None => throw (TypeError (engine_text env (NotIterable v)))
  end.

(** [console.log] with a template literal that holds [v]: what is
    printed is not modelled, the conversion of [v] to a string is, with the
    TypeError it raises for a value that has no string. *)
Definition console_log (v : Value) : M unit :=
  if stringifies v then ret tt
  else throw (TypeError (engine_text env (NotPrimitive v))).

(* ------------------------------------------------------------------ *)
(** *** The job handlers

    Each handler logs a field of its payload first.  The batch handlers
    log [leadIds?.length || 0], whose conversion faults only for a
    [leadIds] that is an object, on which the loop faults as well. *)

Definition enriched_entry (leadId data : Value) : Value :=
  VObj [("leadId", leadId); ("status", VStr "enriched"); ("data", data)].

Definition scored_entry (leadId score : Value) : Value :=
  VObj [("leadId", leadId); ("status", VStr "scored"); ("score", score)].

Definition failed_entry (leadId : Value) (msg : string) : Value :=
  VObj [("leadId", leadId); ("status", VStr "failed"); ("error", VStr msg)].

Definition enrich_body (leadId tenantId : Value) (source : string) : Value :=
  VObj [("leadId", leadId); ("tenantId", tenantId); ("source", VStr source)].

Definition score_body (leadId tenantId vertical : Value) : Value :=
  VObj [("leadId", leadId); ("tenantId", tenantId); ("vertical", vertical);
        ("source", VStr "worker-batch")].

Definition batch_result (results : list Value) : Value :=
  VObj [("processed", VNum (Z.of_nat (List.length results)));
        ("results", VArr results)].

(** The loop of [handleEnrichmentBatch]; [results] is the array built so
    far, [push] appends to it. *)
Fixpoint enrichment_loop (tenantId : Value) (leadIds results : list Value)
  : M (list Value) :=
  match leadIds with
  | [] => ret results
  | leadId :: rest =>
      results <-
        try_catch
          (data <- await (axios_post (OS_BASE_URL ++ "/api/os/enrich")
                            (enrich_body leadId tenantId "worker-batch")) ;;
           ret (results ++ [enriched_entry leadId data])%list)
          (fun error => ret (results ++ [failed_entry leadId (message error)])%list) ;;
      enrichment_loop tenantId rest results
  end.

Definition handleEnrichmentBatch (payload : Value) (jobId : string) : M Value :=
  p <- destructure payload ;;
  let leadIds := get_prop_opt p "leadIds" in
  let tenantId := get_prop_opt p "tenantId" in
  items <- for_of (or_else leadIds (VArr [])) ;;
  results <- enrichment_loop tenantId items [] ;;
  ret (batch_result results).

Definition handleEnrichmentSingle (payload : Value) (jobId : string) : M Value :=
  p <- destructure payload ;;
  let leadId := get_prop_opt p "leadId" in
  let tenantId := get_prop_opt p "tenantId" in
  console_log leadId ;;
  await (axios_post (OS_BASE_URL ++ "/api/os/enrich")
           (enrich_body leadId tenantId "worker-single")).

Definition handleSignalAggregation (payload : Value) (jobId : string) : M Value :=
  p <- destructure payload ;;
  let tenantId := get_prop_opt p "tenantId" in
  console_log tenantId ;;
  aggregatedAt <- new_Date_toISOString ;;
  r <- Math_random_below 1000 ;;
  ret (VObj [("tenantId", tenantId);
             ("aggregatedAt", VIso aggregatedAt);
             ("signalsProcessed", VNum (r + 100));
             ("categories", VArr [VStr "hiring"; VStr "funding";
                                  VStr "expansion"; VStr "leadership"])]).

Definition handleScheduledPipeline (payload : Value) (jobId : string) : M Value :=
  p <- destructure payload ;;
  let pipelineId := get_prop_opt p "pipelineId" in
  let tenantId := get_prop_opt p "tenantId" in
  let config := get_prop_opt p "config" in
  console_log pipelineId ;;
  await (axios_post (OS_BASE_URL ++ "/api/os/pipeline")
           (VObj [("pipelineId", pipelineId); ("tenantId", tenantId);
                  ("config", config); ("source", VStr "scheduled-worker")])).

(** The loop of [handleScoringBatch]. *)
Fixpoint scoring_loop (tenantId vertical : Value) (leadIds results : list Value)
  : M (list Value) :=
  match leadIds with
  | [] => ret results
  | leadId :: rest =>
      results <-
        try_catch
          (data <- await (axios_post (OS_BASE_URL ++ "/api/os/score")
                            (score_body leadId tenantId vertical)) ;;
           ret (results ++ [scored_entry leadId (get_prop_opt data "score")])%list)
          (fun error => ret (results ++ [failed_entry leadId (message error)])%list) ;;
      scoring_loop tenantId vertical rest results
  end.

Definition handleScoringBatch (payload : Value) (jobId : string) : M Value :=
  p <- destructure payload ;;
  let leadIds := get_prop_opt p "leadIds" in
  let tenantId := get_prop_opt p "tenantId" in
  let vertical := get_prop_opt p "vertical" in
  items <- for_of (or_else leadIds (VArr [])) ;;
  results <- scoring_loop tenantId vertical items [] ;;
  ret (batch_result results).

(** [v?.length] *)
Definition length_opt (v : Value) : Value :=
  match v with
  | VArr items => VNum (Z.of_nat (List.length items))
  | VStr s | VBoxed (VStr s) => VNum (Z.of_nat (utf16_length s))
  | _ => get_prop_opt v "length"
  end.

Definition handleOutreachCampaign (payload : Value) (jobId : string) : M Value :=
  p <- destructure payload ;;
  let campaignId := get_prop_opt p "campaignId" in
  let recipients := get_prop_opt p "recipients" in
  console_log campaignId ;;
  now <- Date_now ;;
  ret (VObj [("campaignId", campaignId);
             ("recipientsProcessed", or_else (length_opt recipients) (VNum 0));
             ("status", VStr "queued");
             ("estimatedDelivery", VIso (now + 3600000))]).

Definition handleBackgroundDiscovery (payload : Value) (jobId : string) : M Value :=
  p <- destructure payload ;;
  let query := get_prop_opt p "query" in
  let tenantId := get_prop_opt p "tenantId" in
  let sources := get_prop_opt p "sources" in
  console_log query ;;
  await (axios_post (OS_BASE_URL ++ "/api/os/discovery")
           (VObj [("query", query); ("tenantId", tenantId);
                  ("sources", sources); ("background", VBool true)])).

Definition handleStaleCleanup (payload : Value) (jobId : string) : M Value :=
  p <- destructure payload ;;
  let olderThan := get_prop_opt p "olderThan" in
  console_log olderThan ;;
  cleanedAt <- new_Date_toISOString ;;
  removed <- Math_random_below 50 ;;
  reclaimed <- Math_random_fixed2 ;;
  ret (VObj [("cleanedAt", VIso cleanedAt);
             ("recordsRemoved", VNum removed);
             ("storageReclaimed", VStr (reclaimed ++ "MB"))]).

Definition handleExportGeneration (payload : Value) (jobId : string) : M Value :=
  p <- destructure payload ;;
  let exportType := get_prop_opt p "exportType" in
  console_log exportType ;;
  now <- Date_now ;;
  rows <- Math_random_below 10000 ;;
  ret (VObj [("exportId", VStr ("export_" ++ Z_to_string now));
             ("type", exportType);
             ("status", VStr "generating");
             ("estimatedRows", VNum (rows + 100));
             ("downloadUrl", VNull)]).

Definition handleAnalyticsAggregation (payload : Value) (jobId : string) : M Value :=
  p <- destructure payload ;;
  let period := get_prop_opt p "period" in
  console_log period ;;
  aggregatedAt <- new_Date_toISOString ;;
  discovered <- Math_random_below 500 ;;
  enriched <- Math_random_below 400 ;;
  scored <- Math_random_below 300 ;;
  sent <- Math_random_below 200 ;;
  ret (VObj [("period", period);
             ("aggregatedAt", VIso aggregatedAt);
             ("metrics", VObj [("leadsDiscovered", VNum (discovered + 50));
                               ("leadsEnriched", VNum (enriched + 40));
                               ("leadsScored", VNum (scored + 30));
                               ("outreachSent", VNum (sent + 20))])]).

(* ------------------------------------------------------------------ *)
(** *** The handler table *)

Definition HandlerFn : Type := Value -> string -> M Value.

(** The own properties of [this.handlers]. *)
Definition handlers : list (string * HandlerFn) :=
  [("enrichment.batch", handleEnrichmentBatch);
   ("enrichment.single", handleEnrichmentSingle);
   ("signals.aggregate", handleSignalAggregation);
   ("pipeline.scheduled", handleScheduledPipeline);
   ("scoring.batch", handleScoringBatch);
   ("outreach.campaign", handleOutreachCampaign);
   ("discovery.background", handleBackgroundDiscovery);
   ("cleanup.stale", handleStaleCleanup);
   ("export.generate", handleExportGeneration);
   ("analytics.aggregate", handleAnalyticsAggregation)].

(** [this.handlers] is an object literal, so its prototype is
    [Object.prototype]: these names are found on it by a property read. *)
Definition Object_prototype : list string :=
  ["constructor"; "__defineGetter__"; "__defineSetter__"; "hasOwnProperty";
   "__lookupGetter__"; "__lookupSetter__"; "isPrototypeOf";
   "propertyIsEnumerable"; "toString"; "valueOf"; "__proto__";
   "toLocaleString"].

(** What [this.handlers[job.type]] evaluates to, when it is not
    [undefined]. *)
Inductive Member : Type :=
| Own (handler : HandlerFn)
| Inherited (name : string).

Definition handlers_get (key : string) : option Member :=
  match assoc key handlers with
  | Some handler => Some (Own handler)
  | None =>
      if existsb (String.eqb key) Object_prototype
      then Some (Inherited key)
      else None
  end.

Definition is_object (v : Value) : bool :=
  match v with
  | VArr _ | VObj _ | VBoxed _ => true
  | _ => false
  end.

(** The call [handler(payload, jobId)] of a member of [Object.prototype],
    a plain call, so with [this] undefined.  [Object] and [toString]
    return; [isPrototypeOf] returns [false] for a primitive argument; the
    accessor [__proto__] gives the prototype object itself, which cannot
    be called; the others fault on [this]. *)
Definition call_inherited (name : string) (arg : Value) : Completion Value :=
  if String.eqb name "constructor" then Return (Object_ arg)
  else if String.eqb name "toString" then Return (VStr "[object Undefined]")
  else if String.eqb name "__proto__"
       then Throw (TypeError (engine_text env (NotCallable name)))
  else if String.eqb name "isPrototypeOf" && negb (is_object arg)
       then Return (VBool false)
  else Throw (TypeError (engine_text env (MemberFault name arg))).

(** [await handler(payload, jobId)].  A handler of the class is an async
    function: it gives a promise, and the [await] suspends.  A member of
    [Object.prototype] that returns gives a plain value, which [await]
    suspends on just the same; one that faults does so in the call itself,
    before any [await]. *)
Definition await_call (handler : Member) (arg : Value) (jobId : string)
  : M Value :=
  match handler with
  | Own fn => await (fn arg jobId)
  | Inherited name =>
      match call_inherited name arg with
      | Return v => await (ret v)
      | Throw e => throw e
      end
  end.

(* ------------------------------------------------------------------ *)
(** *** [process], [getStatus], [getRecentJobs] *)

(** [process], up to its [try]: the identifier, the start time and the
    [processing] record. *)
Definition process_begin (job : JobDescription) : M (string * Z) :=
  now <- Date_now ;;
  suffix <- Math_random_36 ;;
  let jobId := "job_" ++ Z_to_string now ++ "_" ++ suffix in
  startTime <- Date_now ;;
  started <- new_Date_toISOString ;;
  recordJobM jobId
    {| id := jobId; type := job_type job; status := processing;
       startedAt := Some started; payload := Some (job_payload job);
       completedAt := None; failedAt := None; duration := None;
       result := None; error := None |} ;;
  ret (jobId, startTime).

Definition reply (jobId : string) (d : Z) (res : Value) : Value :=
  VObj [("jobId", VStr jobId); ("status", VStr "completed");
        ("duration", VNum d); ("result", res)].

(** The [try] block of [process]. *)
Definition process_try (job : JobDescription) (jobId : string) (startTime : Z)
  : M Value :=
  match handlers_get (job_type job) with
  | None => throw (Error ("Unknown job type: " ++ job_type job))
  | Some handler =>
      res <- await_call handler (job_payload job) jobId ;;
      now <- Date_now ;;
      let d := now - startTime in
      started <- get_startedAt jobId ;;
      finished <- new_Date_toISOString ;;
      recordJobM jobId
        {| id := jobId; type := job_type job; status := completed;
           startedAt := started; payload := None;
           completedAt := Some finished; failedAt := None;
           duration := Some d; result := Some res; error := None |} ;;
      ret (reply jobId d res)
  end.

(** The [catch] block of [process]. *)
Definition process_catch (job : JobDescription) (jobId : string)
  (startTime : Z) (err : Exn) : M Value :=
  now <- Date_now ;;
  let d := now - startTime in
  started <- get_startedAt jobId ;;
  finished <- new_Date_toISOString ;;
  recordJobM jobId
    {| id := jobId; type := job_type job; status := failed;
       startedAt := started; payload := None;
       completedAt := None; failedAt := Some finished;
       duration := Some d; result := None; error := Some (message err) |} ;;
  throw err.

Definition process (job : JobDescription) : M Value :=
  begun <- process_begin job ;;
  let '(jobId, startTime) := begun in
  try_catch (process_try job jobId startTime)
            (process_catch job jobId startTime).

Definition getStatus (jobId : string) : M JobRecord :=
  fun s =>
    match Map_get jobId (jobHistory s) with
    | Some job => (Return job, s)
    | None => (Throw (Error "Job not found"), s)
    end.

End Worker.

(** The comparison function of [getRecentJobs],
    [new Date(b.startedAt) - new Date(a.startedAt)]; [None] is [NaN], the
    difference when one of the dates is invalid. *)
Definition comparefn (a b : JobRecord) : option Z :=
  match startedAt b, startedAt a with
  | Some tb, Some ta => Some (tb - ta)
  | _, _ => None
  end.

(** [Array.prototype.sort] takes a [NaN] from the comparison for [+0]. *)
Definition SortCompare (a b : JobRecord) : Z :=
  match comparefn a b with
  | Some v => v
  | None => 0
  end.

Fixpoint insert (x : JobRecord) (l : list JobRecord) : list JobRecord :=
  match l with
  | [] => [x]
  | y :: l' => if SortCompare x y <=? 0 then x :: l else y :: insert x l'
  end.

(** [Array.prototype.sort] is a stable sort; with a consistent comparison,
    which the comparison of [getRecentJobs] is when every record has a
    [startedAt], its result does not depend on the algorithm, which is here
    a stable insertion sort: [x], which comes before the elements of [l] in
    the array, stays before those it compares equal to.  With a record
    that has no [startedAt] the comparison is not consistent and the order
    is the engine's own; the properties below that speak of the order are
    stated for histories whose records all have a [startedAt]. *)
Fixpoint sort (l : list JobRecord) : list JobRecord :=
  match l with
  | [] => []
  | x :: l' => insert x (sort l')
  end.

(** [array.slice(0, end)] *)
Definition slice0 {A : Type} (l : list A) (end_ : Z) : list A :=
  let len := Z.of_nat (List.length l) in
  let final := if end_ <? 0 then Z.max (len + end_) 0 else Z.min end_ len in
  firstn (Z.to_nat final) l.

(** [getRecentJobs(limit = 10)]; [None] is a call without the argument. *)
Definition getRecentJobs (limit : option Z) : M (list JobRecord) :=
  fun s =>
    let limit := match limit with Some n => n | None => 10 end in
    (Return (slice0 (sort (values (jobHistory s))) limit), s).

(* ================================================================== *)
(** ** The history map: representation and capacity *)

(** The states of the history map: empty when the module is loaded, and
    written by [recordJob] only. *)
Inductive reachable : JsMap -> Prop :=
| reachable_empty : reachable []
| reachable_record : forall jobId data h,
    reachable h -> reachable (recordJob jobId data h).

Definition wf (h : JsMap) : Prop :=
  NoDup (keys h) /\ (List.length h <= MAX_HISTORY)%nat.

(** A computation keeps the worker's state in order: logical time does
    not go back, and the history map stays within its representation. *)
Definition steady {A : Type} (m : M A) : Prop :=
  forall s c s', m s = (c, s') ->
    (tick s <= tick s')%nat /\ (wf (jobHistory s) -> wf (jobHistory s')).

(** [a] started no earlier than [b], both with a start time. *)
Definition newer_or_same (a b : JobRecord) : Prop :=
  exists ta tb, startedAt a = Some ta /\ startedAt b = Some tb /\ tb <= ta.

(** [a] started later than [b]. *)
Definition newer (a b : JobRecord) : Prop :=
  exists ta tb, startedAt a = Some ta /\ startedAt b = Some tb /\ tb < ta.

Definition has_startedAt (r : JobRecord) : Prop := startedAt r <> None.

(** The outcome of the downstream call for one lead, as the batch
    handlers enter it in [results]. *)
Definition enrichment_entry (leadId : Value) (outcome : Value + string) : Value :=
  match outcome with
  | inl data => enriched_entry leadId data
  | inr msg => failed_entry leadId msg
  end.

Definition scoring_entry (leadId : Value) (outcome : Value + string) : Value :=
  match outcome with
  | inl data => scored_entry leadId (get_prop_opt data "score")
  | inr msg => failed_entry leadId msg
  end.

(* ------------------------------------------------------------------ *)
(** *** Sample environments, states and jobs *)

(** A wording for the engine's messages. *)
Definition sample_text (f : Fault) : string :=
  match f with
  | DestructureNullish _ => "Cannot destructure property of undefined or null"
  | NotIterable _ => "value is not iterable"
  | NotCallable _ => "handler is not a function"
  | MemberFault _ _ => "Cannot convert undefined or null to object"
  | NotPrimitive _ => "Cannot convert object to primitive value"
  end.

Definition lead_is (name : string) (body : Value) : bool :=
  match get_prop_opt body "leadId" with
  | VStr s => String.eqb s name
  | _ => false
  end.

(** A downstream service that fails for lead [L2] and answers the other
    calls; no other job in flight. *)
Definition env_quiet : Env :=
  {| UPR_OS_BASE_URL := None;
     clock := fun n => 1700000000000 + Z.of_nat n;
     random36 := fun _ => "k3j9x2m1q";
     random_below := fun _ n => 7 mod n;
     random_fixed2 := fun _ => "12.34";
     http := fun _ _ body =>
       if lead_is "L2" body then inr "Request failed with status code 500"
       else inl (VObj [("score", VNum 87)]);
     others := fun _ => [];
     engine_text := sample_text |}.

Definition other_job (i : nat) : string * JobRecord :=
  let jobId := "job_" ++ Z_to_string (1700000000100 + Z.of_nat i) ++ "_other" in
  (jobId,
   {| id := jobId; type := "cleanup.stale"; status := processing;
      startedAt := Some (1700000000100 + Z.of_nat i);
      payload := Some (VObj []);
      completedAt := None; failedAt := None; duration := None;
      result := None; error := None |}).

(** As [env_quiet], with a hundred other jobs starting while the job at
    hand is suspended at logical time [6]. *)
Definition env_busy : Env :=
  {| UPR_OS_BASE_URL := UPR_OS_BASE_URL env_quiet;
     clock := clock env_quiet;
     random36 := random36 env_quiet;
     random_below := random_below env_quiet;
     random_fixed2 := random_fixed2 env_quiet;
     http := http env_quiet;
     others := fun t => if (t =? 6)%nat then map other_job (seq 0 100) else [];
     engine_text := sample_text |}.

(** As [env_quiet], with a clock that is set back by half a second after
    its fifth reading. *)
Definition env_clock_back : Env :=
  {| UPR_OS_BASE_URL := UPR_OS_BASE_URL env_quiet;
     clock := fun n =>
       if (n <? 5)%nat then 1700000000500 + Z.of_nat n
       else 1700000000000 + Z.of_nat n;
     random36 := random36 env_quiet;
     random_below := random_below env_quiet;
     random_fixed2 := random_fixed2 env_quiet;
     http := http env_quiet;
     others := others env_quiet;
     engine_text := sample_text |}.

Definition initial : State := mkState 0 [] [].

Definition sample_record (jobId : string) (started : Z) : JobRecord :=
  {| id := jobId; type := "cleanup.stale"; status := processing;
     startedAt := Some started; payload := Some (VObj []);
     completedAt := None; failedAt := None; duration := None;
     result := None; error := None |}.

(** Four jobs, inserted in the order of their start times 20, 40, 10, 30. *)
Definition four_jobs : State :=
  mkState 0
    [("job_a", sample_record "job_a" 20); ("job_b", sample_record "job_b" 40);
     ("job_c", sample_record "job_c" 10); ("job_d", sample_record "job_d" 30)]
    [].

(** Three jobs, the first two started at the same instant. *)
Definition tied_jobs : State :=
  mkState 0
    [("job_x", sample_record "job_x" 7); ("job_y", sample_record "job_y" 7);
     ("job_z", sample_record "job_z" 9)]
    [].

Definition batch_payload : Value :=
  VObj [("leadIds", VArr [VStr "L1"; VStr "L2"]); ("tenantId", VStr "T1")].

Definition single_payload : Value :=
  VObj [("leadId", VStr "L2"); ("tenantId", VStr "T1")].

(* ================================================================== *)
(** ** The health check ([health.js]) *)

Module Health.

(** What the health check reads of the process and of the network, at a
    logical tick: [axios.get(url, { timeout: 5000 })] (the response's [data],
    or the message of the error the call rejects with), the [heapUsed] and
    [heapTotal] of [process.memoryUsage()], and [process.uptime()].  The
    last three are JavaScript numbers, so binary64 floats. *)
Record Runtime : Type := mkRuntime {
  http_get : nat -> string -> Value + string;
  memoryUsage : nat -> float * float;
  process_uptime : nat -> float
}.

Record WorkerCheck : Type := mkWorkerCheck {
  worker_status : string
}.

Record OsCheck : Type := mkOsCheck {
  os_status : string;
  reachable : bool;
  os_error : option string
}.

Record MemoryCheck : Type := mkMemoryCheck {
  memory_status : string;
  heapUsedMB : float;
  heapTotalMB : float;
  percentage : float
}.

Record Checks : Type := mkChecks {
  worker : WorkerCheck;
  os : OsCheck;
  memory : MemoryCheck
}.

Record Report : Type := mkReport {
  healthy : bool;
  status : string;
  timestamp : Z;
  uptime : float;
  version : string;
  checks : Checks
}.

Fixpoint int_of_pos (p : positive) : int :=
  match p with
  | xH => 1%uint63
  | xO q => PrimInt63.lsl (int_of_pos q) 1%uint63
  | xI q => PrimInt63.lor (PrimInt63.lsl (int_of_pos q) 1%uint63) 1%uint63
  end.

(** A non-negative integer below 2^63 as a float (exact below 2^53, as
    every integer is that [Math_round] converts). *)
Definition float_of_Z (z : Z) : float :=
  match z with
  | Zpos p => PrimFloat.of_uint63 (int_of_pos p)
  | _ => PrimFloat.zero
  end.

(** [Math.round(x)]: [x] itself when it is not finite or has no fractional
    part; else the integer [floor(x + 1/2)], taken on the exact value
    [m * 2^e] of [x], with [-0] for the values from [-0.5] up to [-0]. *)
Definition Math_round (x : float) : float :=
  match Prim2SF x with
  | S754_finite sign m e =>
      if 0 <=? e then x
      else
        let d := 2 ^ (- e) in
        let n := if sign then - Z.pos m else Z.pos m in
        let r := (2 * n + d) / (2 * d) in
        if r <? 0 then PrimFloat.opp (float_of_Z (- r))
        else if (r =? 0) && sign then PrimFloat.opp PrimFloat.zero
        else float_of_Z r
  | _ => x
  end.

(** [axios.get(url, { timeout: 5000 })], up to the response's [data]; the
    request log takes the call with its second argument. *)
Definition axios_get (rt : Runtime) (url : string) : M Value :=
  fun s =>
    let s' := mkState (S (tick s)) (jobHistory s)
                (requests s ++ [(url, VObj [("timeout", VNum 5000)])])%list in
    match http_get rt (tick s) url with
    | inl data => (Return data, s')
    | inr msg => (Throw (AxiosError msg), s')
    end.

Definition process_memoryUsage (rt : Runtime) : M (float * float) :=
  fun s => (Return (memoryUsage rt (tick s)), next s).

Definition get_process_uptime (rt : Runtime) : M float :=
  fun s => (Return (process_uptime rt (tick s)), next s).

(** [response.data?.status === 'ok'] *)
Definition status_is_ok (data : Value) : bool :=
  match get_prop_opt data "status" with
  | VStr st => String.eqb st "ok"
  | _ => false
  end.

(** [healthCheck()] *)
Definition healthCheck (env : Env) (rt : Runtime) : M Report :=
  let worker_check := mkWorkerCheck "healthy" in
  os_check <-
    try_catch
      (data <- await env (axios_get rt (OS_BASE_URL env ++ "/health")) ;;
       ret (mkOsCheck (if status_is_ok data then "healthy" else "degraded")
              true None))
      (fun error => ret (mkOsCheck "unhealthy" false (Some (message error)))) ;;
  memUsage <- process_memoryUsage rt ;;
  let used := Math_round (fst memUsage / 1024 / 1024)%float in
  let total := Math_round (snd memUsage / 1024 / 1024)%float in
  let memory_check :=
    mkMemoryCheck
      (* [0x1.ccccccccccccdp-1] is the float that [0.9] denotes *)
      (if PrimFloat.ltb used (total * 0x1.ccccccccccccdp-1)%float
       then "healthy" else "warning")
      used total
      (Math_round ((used / total) * 100)%float) in
  let ok :=
    String.eqb (worker_status worker_check) "healthy"
    && negb (String.eqb (os_status os_check) "unhealthy") in
  now <- new_Date_toISOString env ;;
  up <- get_process_uptime rt ;;
  ret (mkReport ok (if ok then "ok" else "degraded") now up "1.0.0"
         (mkChecks worker_check os_check memory_check)).

End Health.

(* ================================================================== *)
(** ** The HTTP routes ([server.js]) *)

(** What a route answers with: [res.json(value)], [res.json(job)] for a
    record of the history, [res.json({ jobs })], [res.json(status)] for a
    health report. *)
Inductive Body : Type :=
| JsonValue (v : Value)
| JsonJob (job : JobRecord)
| JsonJobs (jobs : list JobRecord)
| JsonHealth (report : Health.Report).

Record Response : Type := mkResponse {
  code : Z;
  body : Body
}.

Definition Route : Type := State -> Response * State.

Definition error_body (msg : string) : Body :=
  JsonValue (VObj [("error", VStr msg)]).

(** [GET /health].  The route has no [try]: were [healthCheck] to raise,
    the route would send no answer ([None]). *)
Definition health_route (env : Env) (rt : Health.Runtime)
  : State -> option Response * State :=
  fun s =>
    match await env (Health.healthCheck env rt) s with
    | (Return report, s') =>
        (Some (mkResponse (if Health.healthy report then 200 else 503)
                 (JsonHealth report)), s')
    | (Throw _, s') => (None, s')
    end.

(** The body of a trigger request as [express.json()] leaves it for a JSON
    object, destructured: [jobType] when it is a string, as job types are
    ([None] when the body has none), and [payload] ([VUndefined] when the
    body has none). *)
Record TriggerBody : Type := mkTriggerBody {
  jobType : option string;
  trigger_payload : Value
}.

(** [POST /jobs/trigger].  [!jobType] holds for a missing type and for the
    empty string.  The job handed to [process] carries [triggeredAt], for
    which the clock is read, and [source]; [process] reads neither. *)
Definition jobs_trigger_route (env : Env) (req : TriggerBody) : Route :=
  fun s =>
    match jobType req with
    | None => (mkResponse 400 (error_body "jobType is required"), s)
    | Some t =>
        if String.eqb t ""
        then (mkResponse 400 (error_body "jobType is required"), s)
        else
          match (triggeredAt <- new_Date_toISOString env ;;
                 await env
                   (process env
                      (mkJob t (or_else (trigger_payload req) (VObj [])))))
                  s with
          | (Return res, s') =>
              (mkResponse 200
                 (JsonValue (VObj [("success", VBool true); ("result", res)])),
               s')
          | (Throw e, s') => (mkResponse 500 (error_body (message e)), s')
          end
    end.

(** [GET /jobs/status/:jobId]: every failure of the lookup is answered
    with 404. *)
Definition jobs_status_route (env : Env) (jobId : string) : Route :=
  fun s =>
    match await env (getStatus jobId) s with
    | (Return job, s') => (mkResponse 200 (JsonJob job), s')
    | (Throw _, s') => (mkResponse 404 (error_body "Job not found"), s')
    end.

(** [GET /jobs/recent], given what [parseInt(req.query.limit)] evaluates
    to ([None] for [NaN]): [0] and [NaN] are false in [||], so give 10. *)
Definition jobs_recent_route (env : Env) (parsed : option Z) : Route :=
  fun s =>
    let limit :=
      match parsed with
      | Some n => if n =? 0 then 10 else n
      | None => 10
      end in
    match await env (getRecentJobs (Some limit)) s with
    | (Return jobs, s') => (mkResponse 200 (JsonJobs jobs), s')
    | (Throw e, s') => (mkResponse 500 (error_body (message e)), s')
    end.

(* ------------------------------------------------------------------ *)
(** *** Further notions for the properties below *)

(** No other job is in flight: nothing is written at a suspension. *)
Definition quiet (env : Env) : Prop := forall t, others env t = [].

(** Every run of a computation relates the state it starts in to the
    state it ends in by [R]. *)
Definition preserves (R : State -> State -> Prop) {A : Type} (m : M A) : Prop :=
  forall s c s', m s = (c, s') -> R s s'.

(** The history map is as it was. *)
Definition same_history (s s' : State) : Prop := jobHistory s' = jobHistory s.

(** No downstream call was made. *)
Definition same_requests (s s' : State) : Prop := requests s' = requests s.

(** A record started at the instant [t]. *)
Definition started_at (t : Z) (r : JobRecord) : bool :=
  match startedAt r with
  | Some t' => t' =? t
  | None => false
  end.

(** The number of records [array.slice(0, limit)] keeps of [n]. *)
Definition kept (limit : Z) (n : nat) : nat :=
  if limit <? 0 then n - Z.to_nat (- limit) else Nat.min (Z.to_nat limit) n.

(** A runtime whose downstream health endpoint answers with a status that
    is not [ok]. *)
Definition runtime_degraded : Health.Runtime :=
  {| Health.http_get := fun _ _ => inl (VObj [("status", VStr "starting")]);
     Health.memoryUsage := fun _ => (52428800%float, 67108864%float);
     Health.process_uptime := fun _ => 12%float |}.

Lemma assoc_None_iff {A : Type} (k : string) (l : list (string * A)) :
  assoc k l = None <-> ~ In k (map fst l).
Proof.
  induction l as [|[k' v] l IH]; simpl.
  - tauto.
  - destruct (String.eqb_spec k k') as [->|Hne].
    + split; [discriminate | intros H; exfalso; apply H; now left].
    + rewrite IH. split; intros H.
      * intros [E|E]; [congruence | tauto].
      * intros E; apply H; now right.
Qed.

Lemma Map_has_true_iff (k : string) (m : JsMap) :
  Map_has k m = true <-> In k (keys m).
Proof.
  unfold Map_has, Map_get, keys.
  destruct (assoc k m) eqn:E.
  - split; [intros _ | reflexivity].
    destruct (in_dec string_dec k (map fst m)) as [Hin|Hnin]; [exact Hin|].
    apply assoc_None_iff in Hnin. congruence.
  - split; [discriminate|]. intros Hin.
    apply assoc_None_iff in E. contradiction.
Qed.

Lemma Map_has_false_iff (k : string) (m : JsMap) :
  Map_has k m = false <-> ~ In k (keys m).
Proof.
  rewrite <- Map_has_true_iff. destruct (Map_has k m); split; congruence.
Qed.

Lemma Map_set_new (k : string) (v : JobRecord) (m : JsMap) :
  ~ In k (keys m) -> Map_set k v m = (m ++ [(k, v)])%list.
Proof.
  induction m as [|[k' v'] m IH]; simpl; intros Hnin.
  - reflexivity.
  - destruct (String.eqb_spec k k') as [->|Hne].
    + exfalso; apply Hnin; now left.
    + f_equal. apply IH. tauto.
Qed.

Lemma Map_set_keys_old (k : string) (v : JobRecord) (m : JsMap) :
  In k (keys m) -> keys (Map_set k v m) = keys m.
Proof.
  induction m as [|[k' v'] m IH]; simpl; intros Hin.
  - contradiction.
  - destruct (String.eqb_spec k k') as [->|Hne]; simpl.
    + reflexivity.
    + f_equal. apply IH. destruct Hin; congruence.
Qed.

Lemma Map_set_length_old (k : string) (v : JobRecord) (m : JsMap) :
  In k (keys m) -> List.length (Map_set k v m) = List.length m.
Proof.
  intros Hin. apply Map_set_keys_old with (v := v) in Hin.
  unfold keys in Hin.
  rewrite <- (length_map fst (Map_set k v m)), Hin. apply length_map.
Qed.

Lemma Map_get_set_same (k : string) (v : JobRecord) (m : JsMap) :
  Map_get k (Map_set k v m) = Some v.
Proof.
  unfold Map_get.
  induction m as [|[k' v'] m IH]; simpl.
  - now rewrite String.eqb_refl.
  - destruct (String.eqb_spec k k') as [->|Hne]; simpl.
    + now rewrite String.eqb_refl.
    + apply String.eqb_neq in Hne. now rewrite Hne.
Qed.

Lemma Map_get_set_other (k k' : string) (v : JobRecord) (m : JsMap) :
  k' <> k -> Map_get k' (Map_set k v m) = Map_get k' m.
Proof.
  unfold Map_get. intros Hne.
  induction m as [|[k0 v0] m IH]; simpl.
  - apply String.eqb_neq in Hne. now rewrite Hne.
  - destruct (String.eqb_spec k k0) as [->|Hne0]; simpl.
    + apply String.eqb_neq in Hne. now rewrite Hne.
    + now rewrite IH.
Qed.

Lemma Map_get_delete_other (k k' : string) (m : JsMap) :
  k' <> k -> Map_get k' (Map_delete k m) = Map_get k' m.
Proof.
  unfold Map_get. intros Hne.
  induction m as [|[k0 v0] m IH]; simpl.
  - reflexivity.
  - destruct (String.eqb_spec k k0) as [->|Hne0]; simpl.
    + apply String.eqb_neq in Hne. now rewrite Hne.
    + now rewrite IH.
Qed.

(** The three ways a [recordJob] goes on a map within its capacity. *)
Lemma recordJob_overwrite (k : string) (v : JobRecord) (h : JsMap) :
  (List.length h <= MAX_HISTORY)%nat -> In k (keys h) ->
  recordJob k v h = Map_set k v h.
Proof.
  intros Hlen Hin. unfold recordJob.
  rewrite (Map_set_length_old k v h Hin).
  destruct (Nat.ltb_spec MAX_HISTORY (List.length h)); [lia | reflexivity].
Qed.

Lemma recordJob_append (k : string) (v : JobRecord) (h : JsMap) :
  (List.length h < MAX_HISTORY)%nat -> ~ In k (keys h) ->
  recordJob k v h = (h ++ [(k, v)])%list.
Proof.
  intros Hlen Hnin. unfold recordJob.
  rewrite (Map_set_new k v h Hnin), length_app. simpl.
  destruct (Nat.ltb_spec MAX_HISTORY (List.length h + 1)); [lia | reflexivity].
Qed.

Lemma recordJob_evict (k : string) (v : JobRecord) (h : JsMap) :
  List.length h = MAX_HISTORY -> ~ In k (keys h) ->
  exists k0 v0 rest,
    h = (k0, v0) :: rest /\ recordJob k v h = (rest ++ [(k, v)])%list.
Proof.
  intros Hlen Hnin.
  destruct h as [|[k0 v0] rest]; [discriminate|].
  exists k0, v0, rest. split; [reflexivity|].
  unfold recordJob.
  rewrite (Map_set_new k v _ Hnin), length_app, Hlen.
  cbn [List.length app Map_first_key Map_delete].
  destruct (Nat.ltb_spec MAX_HISTORY (MAX_HISTORY + 1)); [|lia].
  now rewrite String.eqb_refl.
Qed.

Lemma recordJob_wf (k : string) (v : JobRecord) (h : JsMap) :
  wf h -> wf (recordJob k v h).
Proof.
  intros [Hnd Hlen].
  destruct (in_dec string_dec k (keys h)) as [Hin|Hnin].
  - rewrite (recordJob_overwrite k v h Hlen Hin). split.
    + now rewrite (Map_set_keys_old k v h Hin).
    + now rewrite (Map_set_length_old k v h Hin).
  - destruct (Nat.eq_dec (List.length h) MAX_HISTORY) as [Heq|Hneq].
    + destruct (recordJob_evict k v h Heq Hnin) as (k0 & v0 & rest & -> & ->).
      unfold wf, keys in *. simpl in *. split.
      * rewrite map_app. simpl. apply NoDup_cons_iff in Hnd as [_ Hnd].
        apply NoDup_app; [exact Hnd | repeat constructor; intros [] | ].
        intros x Hx [<-|[]]. apply Hnin. now right.
      * rewrite length_app. simpl. lia.
    + rewrite (recordJob_append k v h); [|lia|exact Hnin]. split.
      * unfold keys in *. rewrite map_app. simpl.
        apply NoDup_app; [exact Hnd | repeat constructor; intros [] | ].
        intros x Hx [<-|[]]. contradiction.
      * rewrite length_app. simpl. lia.
Qed.

Lemma reachable_wf (h : JsMap) : reachable h -> wf h.
Proof.
  induction 1 as [|k v h _ IH].
  - split; [constructor | unfold MAX_HISTORY; simpl; lia].
  - now apply recordJob_wf.
Qed.

Lemma recordJobs_wf (writes : list (string * JobRecord)) (h : JsMap) :
  wf h -> wf (recordJobs writes h).
Proof.
  revert h. induction writes as [|[k v] ws IH]; simpl; intros h Hwf.
  - exact Hwf.
  - apply IH. now apply recordJob_wf.
Qed.

(** The record just written is the one a lookup finds. *)
Lemma Map_get_recordJob_same (k : string) (v : JobRecord) (h : JsMap) :
  wf h -> Map_get k (recordJob k v h) = Some v.
Proof.
  intros [Hnd Hlen].
  destruct (in_dec string_dec k (keys h)) as [Hin|Hnin].
  - rewrite (recordJob_overwrite k v h Hlen Hin). apply Map_get_set_same.
  - destruct (Nat.eq_dec (List.length h) MAX_HISTORY) as [Heq|Hneq].
    + destruct (recordJob_evict k v h Heq Hnin) as (k0 & v0 & rest & E & ->).
      subst h. rewrite <- (Map_set_new k v rest).
      * apply Map_get_set_same.
      * intros Hin. apply Hnin. now right.
    + rewrite (recordJob_append k v h); [|lia|exact Hnin].
      rewrite <- (Map_set_new k v h Hnin). apply Map_get_set_same.
Qed.

(* ================================================================== *)
(** ** The worker keeps its state in order *)

Section Properties.

Variable env : Env.

Lemma steady_ret {A : Type} (a : A) : steady (ret a).
Proof. intros s c s' [= <- <-]. auto. Qed.

Lemma steady_throw {A : Type} (e : Exn) : steady (@throw A e).
Proof. intros s c s' [= <- <-]. auto. Qed.

Lemma steady_bind {A B : Type} (m : M A) (k : A -> M B) :
  steady m -> (forall a, steady (k a)) -> steady (bind m k).
Proof.
  intros Hm Hk s c s'. unfold bind.
  destruct (m s) as [[a|e] s1] eqn:E; intros H.
  - destruct (Hm _ _ _ E) as [H1 H2]. destruct (Hk a _ _ _ H) as [H3 H4].
    split; [lia | auto].
  - injection H as <- <-. exact (Hm _ _ _ E).
Qed.

Lemma steady_try_catch {A : Type} (m : M A) (k : Exn -> M A) :
  steady m -> (forall e, steady (k e)) -> steady (try_catch m k).
Proof.
  intros Hm Hk s c s'. unfold try_catch.
  destruct (m s) as [[a|e] s1] eqn:E; intros H.
  - injection H as <- <-. exact (Hm _ _ _ E).
  - destruct (Hm _ _ _ E) as [H1 H2]. destruct (Hk e _ _ _ H) as [H3 H4].
    split; [lia | auto].
Qed.

Lemma steady_Date_now : steady (Date_now env).
Proof. intros s c s' [= <- <-]. simpl. auto. Qed.

Lemma steady_new_Date : steady (new_Date_toISOString env).
Proof. exact steady_Date_now. Qed.

Lemma steady_random_36 : steady (Math_random_36 env).
Proof. intros s c s' [= <- <-]. simpl. auto. Qed.

Lemma steady_random_below n : steady (Math_random_below env n).
Proof. intros s c s' [= <- <-]. simpl. auto. Qed.

Lemma steady_random_fixed2 : steady (Math_random_fixed2 env).
Proof. intros s c s' [= <- <-]. simpl. auto. Qed.

Lemma steady_yield : steady (yield env).
Proof.
  intros s c s' [= <- <-]. simpl. split; [lia|]. apply recordJobs_wf.
Qed.

Lemma steady_await {A : Type} (m : M A) : steady m -> steady (await env m).
Proof.
  intros Hm s c s'. unfold await.
  destruct (m s) as [c1 s1] eqn:E. intros [= <- <-].
  destruct (Hm _ _ _ E) as [H1 H2]. simpl. split; [lia|].
  intros Hwf. apply recordJobs_wf. auto.
Qed.

Lemma steady_axios_post url body : steady (axios_post env url body).
Proof.
  intros s c s'. unfold axios_post.
  destruct (http env (tick s) url body); intros [= <- <-]; simpl; auto.
Qed.

Lemma steady_recordJobM jobId data : steady (recordJobM jobId data).
Proof.
  intros s c s' [= <- <-]. simpl. split; [lia|]. apply recordJob_wf.
Qed.

Lemma steady_get_startedAt jobId : steady (get_startedAt jobId).
Proof. intros s c s' [= <- <-]. auto. Qed.

Lemma steady_destructure v : steady (destructure env v).
Proof. destruct v; first [apply steady_throw | apply steady_ret]. Qed.

Lemma steady_for_of v : steady (for_of env v).
Proof.
  unfold for_of. destruct (iterate v); [apply steady_ret | apply steady_throw].
Qed.

Create HintDb steady.

Lemma steady_console_log v : steady (console_log env v).
Proof.
  unfold console_log.
  destruct (stringifies v); [apply steady_ret | apply steady_throw].
Qed.

#[local] Hint Resolve steady_ret steady_throw steady_Date_now steady_new_Date
  steady_random_36 steady_random_below steady_random_fixed2 steady_yield
  steady_axios_post steady_recordJobM steady_get_startedAt steady_destructure
  steady_for_of steady_console_log : steady.

Ltac steady_step :=
  first
    [ apply steady_bind; [ | intros ? ]
    | apply steady_try_catch; [ | intros ? ]
    | apply steady_await
    | solve [ auto with steady ] ].

Ltac steady_auto := cbv zeta; repeat steady_step.

Lemma steady_enrichment_loop tenantId leadIds results :
  steady (enrichment_loop env tenantId leadIds results).
Proof.
  revert results. induction leadIds as [|leadId rest IH]; intros results; simpl.
  - apply steady_ret.
  - apply steady_bind; [steady_auto | intros r; apply IH].
Qed.

Lemma steady_scoring_loop tenantId vertical leadIds results :
  steady (scoring_loop env tenantId vertical leadIds results).
Proof.
  revert results. induction leadIds as [|leadId rest IH]; intros results; simpl.
  - apply steady_ret.
  - apply steady_bind; [steady_auto | intros r; apply IH].
Qed.

#[local] Hint Resolve steady_enrichment_loop steady_scoring_loop : steady.

Ltac unfold_handlers :=
  unfold handleEnrichmentBatch, handleEnrichmentSingle,
    handleSignalAggregation, handleScheduledPipeline, handleScoringBatch,
    handleOutreachCampaign, handleBackgroundDiscovery, handleStaleCleanup,
    handleExportGeneration, handleAnalyticsAggregation.

(** Every handler of the table keeps the state in order. *)
Lemma steady_handlers key fn payload jobId :
  assoc key (handlers env) = Some fn -> steady (fn payload jobId).
Proof.
  unfold handlers. cbn [assoc].
  repeat match goal with
         | |- (if ?b then _ else _) = _ -> _ =>
             destruct b; [intros [= <-]; unfold_handlers; steady_auto | ]
         end; discriminate.
Qed.

Lemma handlers_get_cases key handler :
  handlers_get env key = Some handler ->
  (exists fn, handler = Own fn /\ assoc key (handlers env) = Some fn) \/
  handler = Inherited key.
Proof.
  unfold handlers_get.
  destruct (assoc key (handlers env)) as [fn|].
  - intros [= <-]. left. now exists fn.
  - destruct (existsb _ _); [intros [= <-]; now right | discriminate].
Qed.

Lemma steady_await_call key handler payload jobId :
  handlers_get env key = Some handler ->
  steady (await_call env handler payload jobId).
Proof.
  intros H. destruct (handlers_get_cases _ _ H) as [(fn & -> & Hfn) | ->]; simpl.
  - apply steady_await. eapply steady_handlers; eassumption.
  - destruct (call_inherited env key payload).
    + apply steady_await, steady_ret.
    + apply steady_throw.
Qed.

(* ================================================================== *)
(** ** The lifecycle of a job *)

(** What [process] has done when it enters its [try]. *)
Lemma process_begin_eq job s :
  let jobId :=
    "job_" ++ Z_to_string (clock env (tick s)) ++ "_"
           ++ random36 env (S (tick s)) in
  process_begin env job s =
    (Return (jobId, clock env (2 + tick s)%nat),
     mkState (4 + tick s)
       (recordJob jobId
          {| id := jobId; type := job_type job; status := processing;
             startedAt := Some (clock env (3 + tick s)%nat);
             payload := Some (job_payload job);
             completedAt := None; failedAt := None; duration := None;
             result := None; error := None |}
          (jobHistory s))
       (requests s)).
Proof. reflexivity. Qed.

Lemma process_begin_inv job s jobId startTime s0 :
  process_begin env job s = (Return (jobId, startTime), s0) ->
  startTime = clock env (2 + tick s)%nat /\
  tick s0 = (4 + tick s)%nat /\
  (wf (jobHistory s) -> wf (jobHistory s0)).
Proof.
  rewrite process_begin_eq. intros [= <- <- <-]. cbn [tick jobHistory].
  split; [reflexivity|]. split; [reflexivity|]. apply recordJob_wf.
Qed.

(** The terminal write after the handler has settled: the record that
    [process] stores, and what it hands to its caller. *)
Lemma process_settled job s jobId startTime s0 handler c s1 :
  process_begin env job s = (Return (jobId, startTime), s0) ->
  handlers_get env (job_type job) = Some handler ->
  await_call env handler (job_payload job) jobId s0 = (c, s1) ->
  let d := clock env (tick s1) - startTime in
  let started :=
    match Map_get jobId (jobHistory s1) with
    | Some j => startedAt j
    | None => None
    end in
  let finished := clock env (S (tick s1)) in
  process env job s =
    match c with
    | Return res =>
        (Return (reply jobId d res),
         mkState (S (S (tick s1)))
           (recordJob jobId
              {| id := jobId; type := job_type job; status := completed;
                 startedAt := started; payload := None;
                 completedAt := Some finished; failedAt := None;
                 duration := Some d; result := Some res; error := None |}
              (jobHistory s1))
           (requests s1))
    | Throw e =>
        (Throw e,
         mkState (S (S (tick s1)))
           (recordJob jobId
              {| id := jobId; type := job_type job; status := failed;
                 startedAt := started; payload := None;
                 completedAt := None; failedAt := Some finished;
                 duration := Some d; result := None;
                 error := Some (message e) |}
              (jobHistory s1))
           (requests s1))
    end.
Proof.
  intros Hbegin Hget Hcall. unfold process, bind at 1. rewrite Hbegin.
  unfold try_catch, process_try. rewrite Hget.
  unfold bind at 1. rewrite Hcall.
  destruct c; reflexivity.
Qed.

(** A job type that [this.handlers[job.type]] finds nothing for, neither
    in the table nor on [Object.prototype]: the [processing] record is
    turned into a [failed] one and the error names the type. *)
Lemma process_unknown_type job s jobId startTime s0 :
  wf (jobHistory s) ->
  process_begin env job s = (Return (jobId, startTime), s0) ->
  handlers_get env (job_type job) = None ->
  exists s' r t d,
    process env job s =
      (Throw (Error ("Unknown job type: " ++ job_type job)), s') /\
    getStatus jobId s' = (Return r, s') /\
    status r = failed /\ failedAt r = Some t /\ duration r = Some d /\
    error r = Some ("Unknown job type: " ++ job_type job).
Proof.
  intros Hwf Hbegin Hget.
  destruct (process_begin_inv _ _ _ _ _ Hbegin) as (_ & _ & Hwf0).
  unfold process, bind at 1. rewrite Hbegin.
  unfold try_catch, process_try. rewrite Hget.
  cbn [throw]. unfold process_catch.
  eexists _, _, _, _. split; [reflexivity|].
  unfold getStatus. cbn [jobHistory set_history next tick].
  rewrite Map_get_recordJob_same by auto.
  repeat split; reflexivity.
Qed.

(** The guard [if (!handler)] does not stop the type [constructor]: in
    every environment and state, [process] returns for it, with the
    payload made an object as its result. *)
Lemma process_constructor_returns payload s :
  assoc "constructor" (handlers env) = None /\
  exists jobId d s',
    process env (mkJob "constructor" payload) s =
      (Return (reply jobId d (Object_ payload)), s').
Proof.
  split; [reflexivity|].
  eexists _, _, _.
  rewrite (process_settled (mkJob "constructor" payload) s _ _ _
             (Inherited "constructor") (Return (Object_ payload)) _
             (process_begin_eq _ s) eq_refl eq_refl).
  reflexivity.
Qed.

(** C4: when the handler of a job raises, [process] writes the [failed]
    record (with [failedAt] and the message of the error raised) to the
    history and raises that same error to its caller; [getStatus] on the
    job's identifier then gives that record. *)
Theorem handler_failure_recorded_then_raised
  job s jobId startTime s0 handler e s1 :
  wf (jobHistory s) ->
  process_begin env job s = (Return (jobId, startTime), s0) ->
  handlers_get env (job_type job) = Some handler ->
  await_call env handler (job_payload job) jobId s0 = (Throw e, s1) ->
  exists s' r t,
    process env job s = (Throw e, s') /\
    getStatus jobId s' = (Return r, s') /\
    id r = jobId /\ status r = failed /\ failedAt r = Some t /\
    error r = Some (message e).
Proof.
  intros Hwf Hbegin Hget Hcall.
  destruct (process_begin_inv _ _ _ _ _ Hbegin) as (_ & _ & Hwf0).
  destruct (steady_await_call _ _ (job_payload job) jobId Hget _ _ _ Hcall)
    as [_ Hwf1].
  rewrite (process_settled _ _ _ _ _ _ _ _ Hbegin Hget Hcall).
  eexists _, _, _. split; [reflexivity|].
  unfold getStatus. cbn [jobHistory].
  rewrite Map_get_recordJob_same by auto.
  repeat split; reflexivity.
Qed.

(** C5, amended: when the handler of a job returns, [getStatus] on the
    job's identifier after [process] has returned gives a record with
    status [completed], a [completedAt] and the handler's value as
    [result].  Its duration is the clock read after the handler less the
    clock read at the start, a later reading less an earlier one: it is not
    negative on a clock that does not go back, and nothing else keeps it
    from being negative. *)
Theorem handler_success_recorded_duration
  job s jobId startTime s0 handler res s1 :
  wf (jobHistory s) ->
  process_begin env job s = (Return (jobId, startTime), s0) ->
  handlers_get env (job_type job) = Some handler ->
  await_call env handler (job_payload job) jobId s0 = (Return res, s1) ->
  exists out s' r t,
    process env job s = (Return out, s') /\
    getStatus jobId s' = (Return r, s') /\
    id r = jobId /\ status r = completed /\ completedAt r = Some t /\
    result r = Some res /\
    duration r = Some (clock env (tick s1) - clock env (2 + tick s)) /\
    (2 + tick s < tick s1)%nat /\
    ((forall i j, (i <= j)%nat -> clock env i <= clock env j) ->
     0 <= clock env (tick s1) - clock env (2 + tick s)).
Proof.
  intros Hwf Hbegin Hget Hcall.
  destruct (process_begin_inv _ _ _ _ _ Hbegin) as (Hstart & Htick0 & Hwf0).
  destruct (steady_await_call _ _ (job_payload job) jobId Hget _ _ _ Hcall)
    as [Htick1 Hwf1].
  rewrite (process_settled _ _ _ _ _ _ _ _ Hbegin Hget Hcall).
  eexists _, _, _, _. split; [reflexivity|].
  unfold getStatus. cbn [jobHistory].
  rewrite Map_get_recordJob_same by auto.
  subst startTime.
  repeat split; try reflexivity.
  - lia.
  - intros Hclock.
    assert (clock env (2 + tick s) <= clock env (tick s1)) by (apply Hclock; lia).
    lia.
Qed.

(** C6: when the handler of a job returns [res], [process] returns the
    object [{jobId, status: 'completed', duration, result}], whose
    identifier is the one generated for the job, whose duration is the time
    read after the handler less the start time, and whose result is
    [res]. *)
Theorem process_returns_completed_reply
  job s jobId startTime s0 handler res s1 :
  process_begin env job s = (Return (jobId, startTime), s0) ->
  handlers_get env (job_type job) = Some handler ->
  await_call env handler (job_payload job) jobId s0 = (Return res, s1) ->
  exists s',
    process env job s =
      (Return (VObj [("jobId", VStr jobId);
                     ("status", VStr "completed");
                     ("duration", VNum (clock env (tick s1) - startTime));
                     ("result", res)]), s') /\
    jobId = "job_" ++ Z_to_string (clock env (tick s)) ++ "_"
                   ++ random36 env (S (tick s)).
Proof.
  intros Hbegin Hget Hcall.
  rewrite (process_settled _ _ _ _ _ _ _ _ Hbegin Hget Hcall).
  eexists. split; [reflexivity|].
  rewrite process_begin_eq in Hbegin. now injection Hbegin as <- _ _.
Qed.

(** C9: the terminal record takes its [startedAt] from the entry the
    history holds for the job at the time of the terminal write.  When
    that entry is gone (evicted while the handler was suspended), the
    terminal record has no [startedAt], is inserted as a new key, and on a
    full history evicts the oldest entry in its turn. *)
Theorem terminal_record_startedAt_from_store
  job s jobId startTime s0 handler c s1 :
  wf (jobHistory s) ->
  process_begin env job s = (Return (jobId, startTime), s0) ->
  handlers_get env (job_type job) = Some handler ->
  await_call env handler (job_payload job) jobId s0 = (c, s1) ->
  exists c' s' r,
    process env job s = (c', s') /\
    jobHistory s' = recordJob jobId r (jobHistory s1) /\
    Map_get jobId (jobHistory s') = Some r /\
    (status r = completed \/ status r = failed) /\
    (forall r0, Map_get jobId (jobHistory s1) = Some r0 ->
                startedAt r = startedAt r0) /\
    (Map_get jobId (jobHistory s1) = None ->
       startedAt r = None /\
       (List.length (jobHistory s1) = MAX_HISTORY ->
        exists k0 v0 rest,
          jobHistory s1 = (k0, v0) :: rest /\
          jobHistory s' = (rest ++ [(jobId, r)])%list)).
Proof.
  intros Hwf Hbegin Hget Hcall.
  destruct (process_begin_inv _ _ _ _ _ Hbegin) as (_ & _ & Hwf0).
  destruct (steady_await_call _ _ (job_payload job) jobId Hget _ _ _ Hcall)
    as [_ Hwf1].
  rewrite (process_settled _ _ _ _ _ _ _ _ Hbegin Hget Hcall).
  destruct c as [res|e].
  all: eexists _, _, _; split; [reflexivity|]; cbn [jobHistory].
  all: split; [reflexivity|].
  all: split; [apply Map_get_recordJob_same; auto|].
  all: split; [auto|]; cbn [startedAt].
  all: split; [intros r0 ->; reflexivity|].
  all: intros Hnone; rewrite Hnone; split; [reflexivity|].
  all: intros Hfull; apply recordJob_evict; [exact Hfull|].
  all: now apply assoc_None_iff.
Qed.

(* ================================================================== *)
(** ** The batch handlers *)

Lemma or_else_array items : or_else (VArr items) (VArr []) = VArr items.
Proof. reflexivity. Qed.

Lemma destructure_defined payload name v :
  get_prop payload name = Some v -> destructure env payload = ret payload.
Proof. destruct payload; simpl; intros H; try discriminate; reflexivity. Qed.

Lemma get_prop_opt_defined payload name v :
  get_prop payload name = Some v -> get_prop_opt payload name = v.
Proof. unfold get_prop_opt. now intros ->. Qed.

(** One downstream call per lead, two ticks each (the call, then the
    suspension of the [await]); each outcome is entered at the place of its
    lead, and no outcome ends the loop. *)
Lemma enrichment_loop_spec tenantId leadIds :
  forall acc s, exists results s',
    enrichment_loop env tenantId leadIds acc s
      = (Return (acc ++ results)%list, s') /\
    List.length results = List.length leadIds /\
    (forall i leadId, nth_error leadIds i = Some leadId ->
       nth_error results i =
         Some (enrichment_entry leadId
                 (http env (tick s + 2 * i)
                    (OS_BASE_URL env ++ "/api/os/enrich")
                    (enrich_body leadId tenantId "worker-batch")))).
Proof.
  induction leadIds as [|leadId rest IH]; intros acc s.
  - exists [], s. rewrite app_nil_r. repeat split.
    intros [|i] leadId; discriminate.
  - cbn [enrichment_loop].
    unfold bind at 1, try_catch, bind at 1, await, axios_post.
    set (url := OS_BASE_URL env ++ "/api/os/enrich") in *.
    destruct (http env (tick s) url (enrich_body leadId tenantId "worker-batch"))
      as [data|msg] eqn:Hcall;
      cbn [ret snd yield message];
      (match goal with
       | |- context [enrichment_loop env tenantId rest ?acc' ?s1] =>
           destruct (IH acc' s1) as (results & s' & Hrun & Hlen & Hnth);
           exists (enrichment_entry leadId
                     (http env (tick s) url (enrich_body leadId tenantId "worker-batch"))
                   :: results), s'
       end);
      rewrite Hrun, Hcall, <- app_assoc; cbn [app enrichment_entry];
      (split; [reflexivity|]); (split; [simpl; now rewrite Hlen|]);
      intros [|i] x Hx; cbn [nth_error] in *;
      try (injection Hx as <-; rewrite Nat.mul_0_r, Nat.add_0_r, Hcall;
           reflexivity);
      rewrite (Hnth i x Hx); cbn [tick next set_history];
      replace (S (S (tick s)) + 2 * i)%nat with (tick s + 2 * S i)%nat by lia;
      reflexivity.
Qed.

Lemma scoring_loop_spec tenantId vertical leadIds :
  forall acc s, exists results s',
    scoring_loop env tenantId vertical leadIds acc s
      = (Return (acc ++ results)%list, s') /\
    List.length results = List.length leadIds /\
    (forall i leadId, nth_error leadIds i = Some leadId ->
       nth_error results i =
         Some (scoring_entry leadId
                 (http env (tick s + 2 * i)
                    (OS_BASE_URL env ++ "/api/os/score")
                    (score_body leadId tenantId vertical)))).
Proof.
  induction leadIds as [|leadId rest IH]; intros acc s.
  - exists [], s. rewrite app_nil_r. repeat split.
    intros [|i] leadId; discriminate.
  - cbn [scoring_loop].
    unfold bind at 1, try_catch, bind at 1, await, axios_post.
    set (url := OS_BASE_URL env ++ "/api/os/score") in *.
    destruct (http env (tick s) url (score_body leadId tenantId vertical))
      as [data|msg] eqn:Hcall;
      cbn [ret snd yield message];
      (match goal with
       | |- context [scoring_loop env tenantId vertical rest ?acc' ?s1] =>
           destruct (IH acc' s1) as (results & s' & Hrun & Hlen & Hnth);
           exists (scoring_entry leadId
                     (http env (tick s) url (score_body leadId tenantId vertical))
                   :: results), s'
       end);
      rewrite Hrun, Hcall, <- app_assoc; cbn [app scoring_entry];
      (split; [reflexivity|]); (split; [simpl; now rewrite Hlen|]);
      intros [|i] x Hx; cbn [nth_error] in *;
      try (injection Hx as <-; rewrite Nat.mul_0_r, Nat.add_0_r, Hcall;
           reflexivity);
      rewrite (Hnth i x Hx); cbn [tick next set_history];
      replace (S (S (tick s)) + 2 * i)%nat with (tick s + 2 * S i)%nat by lia;
      reflexivity.
Qed.

Lemma get_score_eq data :
  get_prop_opt data "score" =
    match data with
    | VObj fields =>
        match assoc "score" fields with
        | Some score => score
        | None => VUndefined
        end
    | _ => VUndefined
    end.
Proof.
  destruct data; try reflexivity.
  unfold get_prop_opt, get_prop. now destruct (assoc "score" fields).
Qed.

(** C3: on a payload whose [leadIds] is a list, both batch handlers
    return, with [processed] the number of leads given and one entry per
    lead, in order: [{leadId, status: 'enriched', data}] (or
    [{leadId, status: 'scored', score}]) when the downstream call for the
    lead answered, [{leadId, status: 'failed', error}] with the message of
    the failure when it did not.  No failure of a call leaves the
    handler. *)
Theorem batch_handlers_count_every_item payload jobId s leadIds :
  get_prop payload "leadIds" = Some (VArr leadIds) ->
  (exists results s',
     handleEnrichmentBatch env payload jobId s =
       (Return (VObj [("processed", VNum (Z.of_nat (List.length leadIds)));
                      ("results", VArr results)]), s') /\
     List.length results = List.length leadIds /\
     forall i leadId, nth_error leadIds i = Some leadId ->
       nth_error results i =
         Some (match http env (tick s + 2 * i)
                       (OS_BASE_URL env ++ "/api/os/enrich")
                       (VObj [("leadId", leadId);
                              ("tenantId", get_prop_opt payload "tenantId");
                              ("source", VStr "worker-batch")]) with
               | inl data =>
                   VObj [("leadId", leadId); ("status", VStr "enriched");
                         ("data", data)]
               | inr msg =>
                   VObj [("leadId", leadId); ("status", VStr "failed");
                         ("error", VStr msg)]
               end)) /\
  (exists results s',
     handleScoringBatch env payload jobId s =
       (Return (VObj [("processed", VNum (Z.of_nat (List.length leadIds)));
                      ("results", VArr results)]), s') /\
     List.length results = List.length leadIds /\
     forall i leadId, nth_error leadIds i = Some leadId ->
       nth_error results i =
         Some (match http env (tick s + 2 * i)
                       (OS_BASE_URL env ++ "/api/os/score")
                       (VObj [("leadId", leadId);
                              ("tenantId", get_prop_opt payload "tenantId");
                              ("vertical", get_prop_opt payload "vertical");
                              ("source", VStr "worker-batch")]) with
               | inl data =>
                   VObj [("leadId", leadId); ("status", VStr "scored");
                         ("score",
                          match data with
                          | VObj fields =>
                              match assoc "score" fields with
                              | Some score => score
                              | None => VUndefined
                              end
                          | _ => VUndefined
                          end)]
               | inr msg =>
                   VObj [("leadId", leadId); ("status", VStr "failed");
                         ("error", VStr msg)]
               end)).
Proof.
  intros Hlist. split.
  - destruct (enrichment_loop_spec (get_prop_opt payload "tenantId") leadIds [] s)
      as (results & s' & Hrun & Hlen & Hnth).
    exists results, s'. split; [|split; [exact Hlen | exact Hnth]].
    unfold handleEnrichmentBatch.
    rewrite (destructure_defined _ _ _ Hlist).
    unfold bind at 1, ret at 1. cbv beta zeta.
    rewrite (get_prop_opt_defined _ _ _ Hlist), or_else_array.
    unfold for_of; cbn [iterate].
    unfold bind at 1, ret at 1. cbv beta iota.
    unfold bind at 1. rewrite Hrun.
    unfold ret, batch_result. cbn [app]. now rewrite Hlen.
  - destruct (scoring_loop_spec (get_prop_opt payload "tenantId")
                (get_prop_opt payload "vertical") leadIds [] s)
      as (results & s' & Hrun & Hlen & Hnth).
    exists results, s'. split; [|split; [exact Hlen|]].
    2: { intros i leadId Hi. rewrite (Hnth i leadId Hi).
         unfold scoring_entry, score_body.
         destruct (http env _ _ _) as [data|msg]; [|reflexivity].
         now rewrite get_score_eq. }
    unfold handleScoringBatch.
    rewrite (destructure_defined _ _ _ Hlist).
    unfold bind at 1, ret at 1. cbv beta zeta.
    rewrite (get_prop_opt_defined _ _ _ Hlist), or_else_array.
    unfold for_of; cbn [iterate].
    unfold bind at 1, ret at 1. cbv beta iota.
    unfold bind at 1. rewrite Hrun.
    unfold ret, batch_result. cbn [app]. now rewrite Hlen.
Qed.

(** C10: on a payload without [leadIds] (the property reads [undefined]
    or [null]), both batch handlers return [{processed: 0, results: []}]
    and leave the state as it was: no downstream call is made, and nothing
    is raised. *)
Theorem batch_handlers_absent_leadIds payload jobId s :
  get_prop payload "leadIds" = Some VUndefined \/
  get_prop payload "leadIds" = Some VNull ->
  handleEnrichmentBatch env payload jobId s =
    (Return (VObj [("processed", VNum 0); ("results", VArr [])]), s) /\
  handleScoringBatch env payload jobId s =
    (Return (VObj [("processed", VNum 0); ("results", VArr [])]), s).
Proof.
  intros H.
  assert (Hempty : or_else (get_prop_opt payload "leadIds") (VArr []) = VArr []).
  { destruct H as [H|H]; now rewrite (get_prop_opt_defined _ _ _ H). }
  assert (Hp : destructure env payload = ret payload).
  { destruct H as [H|H]; exact (destructure_defined _ _ _ H). }
  split.
  - unfold handleEnrichmentBatch. rewrite Hp.
    unfold bind at 1, ret at 1. cbv beta zeta. now rewrite Hempty.
  - unfold handleScoringBatch. rewrite Hp.
    unfold bind at 1, ret at 1. cbv beta zeta. now rewrite Hempty.
Qed.

End Properties.

(* ================================================================== *)
(** ** The history store: capacity, lookup, recent jobs *)

Lemma reachable_recordJobs writes h :
  reachable h -> reachable (recordJobs writes h).
Proof.
  revert h. induction writes as [|[k v] ws IH]; simpl; intros h Hr.
  - exact Hr.
  - apply IH. now constructor.
Qed.

(** C2: in every state the history map can be in, a [recordJob] leaves at
    most [MAX_HISTORY] = 100 records.  A write to a key already present
    replaces its record in place: same keys in the same order, same size,
    nothing evicted.  A write of a new key to a map below capacity appends
    it.  A write of a new key to a full map appends it and evicts exactly
    the first entry of the map, the one inserted first among those present. *)
Theorem history_bounded_oldest_evicted h jobId data :
  reachable h ->
  MAX_HISTORY = 100%nat /\
  (List.length (recordJob jobId data h) <= MAX_HISTORY)%nat /\
  (In jobId (keys h) ->
     recordJob jobId data h = Map_set jobId data h /\
     keys (recordJob jobId data h) = keys h /\
     List.length (recordJob jobId data h) = List.length h) /\
  (~ In jobId (keys h) -> (List.length h < MAX_HISTORY)%nat ->
     recordJob jobId data h = (h ++ [(jobId, data)])%list) /\
  (~ In jobId (keys h) -> List.length h = MAX_HISTORY ->
     exists k0 v0 rest,
       h = (k0, v0) :: rest /\
       recordJob jobId data h = (rest ++ [(jobId, data)])%list).
Proof.
  intros Hr. pose proof (reachable_wf h Hr) as Hwf.
  split; [reflexivity|].
  split; [apply (recordJob_wf jobId data h Hwf)|].
  destruct Hwf as [_ Hlen].
  split; [|split].
  - intros Hin. rewrite (recordJob_overwrite _ _ _ Hlen Hin).
    split; [reflexivity|].
    split; [apply Map_set_keys_old | apply Map_set_length_old]; exact Hin.
  - intros Hnin Hlt. now apply recordJob_append.
  - intros Hnin Hfull. now apply recordJob_evict.
Qed.

(** C8: for an identifier the history does not hold (never written, or
    evicted since), [getStatus] raises the error [Job not found] and leaves
    the state as it was. *)
Theorem getStatus_absent_not_found jobId s :
  ~ In jobId (keys (jobHistory s)) ->
  getStatus jobId s = (Throw (Error "Job not found"), s).
Proof.
  intros Hnin. unfold getStatus, Map_get.
  apply assoc_None_iff in Hnin. now rewrite Hnin.
Qed.

Lemma getStatus_present jobId s r :
  Map_get jobId (jobHistory s) = Some r -> getStatus jobId s = (Return r, s).
Proof. unfold getStatus. now intros ->. Qed.

(* ------------------------------------------------------------------ *)
(** *** Sorting by start time *)

Lemma insert_perm x l : Permutation (insert x l) (x :: l).
Proof.
  induction l as [|y l IH]; simpl.
  - reflexivity.
  - destruct (SortCompare x y <=? 0).
    + reflexivity.
    + rewrite IH. apply perm_swap.
Qed.

Lemma sort_perm l : Permutation (sort l) l.
Proof.
  induction l as [|x l IH]; simpl.
  - reflexivity.
  - rewrite insert_perm. now constructor.
Qed.

Lemma newer_or_same_trans a b c :
  newer_or_same a b -> newer_or_same b c -> newer_or_same a c.
Proof.
  intros (ta & tb & Ha & Hb & H1) (tb' & tc & Hb' & Hc & H2).
  exists ta, tc. repeat split; try assumption.
  rewrite Hb in Hb'. injection Hb' as <-. lia.
Qed.

Lemma SortCompare_spec x y :
  has_startedAt x -> has_startedAt y ->
  if SortCompare x y <=? 0 then newer_or_same x y else newer y x.
Proof.
  unfold has_startedAt, SortCompare, comparefn, newer_or_same, newer.
  destruct (startedAt x) as [tx|], (startedAt y) as [ty|]; try congruence.
  intros _ _. destruct (Z.leb_spec (ty - tx) 0).
  - exists tx, ty. repeat split. lia.
  - exists ty, tx. repeat split. lia.
Qed.

Lemma newer_weaken a b : newer a b -> newer_or_same a b.
Proof.
  intros (ta & tb & Ha & Hb & H). exists ta, tb. repeat split; try assumption.
  lia.
Qed.

Lemma insert_sorted x l :
  has_startedAt x -> Forall has_startedAt l ->
  StronglySorted newer_or_same l ->
  StronglySorted newer_or_same (insert x l).
Proof.
  intros Hx Hl Hs. induction Hs as [|y l Hs IH Hy]; simpl.
  - repeat constructor.
  - apply Forall_cons_iff in Hl as [Hy' Hl].
    pose proof (SortCompare_spec x y Hx Hy') as Hcmp.
    destruct (SortCompare x y <=? 0).
    + constructor; [now constructor|].
      constructor; [exact Hcmp|].
      eapply Forall_impl; [|exact Hy].
      intros z Hz. eapply newer_or_same_trans; eassumption.
    + constructor; [now apply IH|].
      rewrite Forall_forall. intros z Hz.
      apply (Permutation_in _ (insert_perm x l)) in Hz as [<-|Hz].
      * now apply newer_weaken.
      * rewrite Forall_forall in Hy. now apply Hy.
Qed.

Lemma sort_sorted l :
  Forall has_startedAt l -> StronglySorted newer_or_same (sort l).
Proof.
  induction l as [|x l IH]; simpl; intros H.
  - constructor.
  - apply Forall_cons_iff in H as [Hx Hl].
    apply insert_sorted; [exact Hx | | now apply IH].
    rewrite Forall_forall in *. intros z Hz. apply Hl.
    now apply (Permutation_in _ (sort_perm l)).
Qed.


Lemma slice0_firstn {A : Type} (l : list A) (n : Z) :
  0 <= n -> slice0 l n = firstn (Z.to_nat n) l.
Proof.
  intros Hn. unfold slice0.
  destruct (Z.ltb_spec n 0); [lia|].
  destruct (Z.le_ge_cases n (Z.of_nat (List.length l))).
  - now rewrite Z.min_l.
  - rewrite Z.min_r, Nat2Z.id, firstn_all by assumption.
    symmetry. apply firstn_all2. lia.
Qed.


(* ================================================================== *)
(** ** Runs of the worker *)

(** C1: the job type [constructor] has no entry in the handler table, yet
    [process] does not raise for it: the property read on [this.handlers]
    finds [Object] on the prototype, the call returns the payload, and the
    job is recorded and reported as [completed]. *)
Theorem process_constructor_type_completes :
  assoc "constructor" (handlers env_quiet) = None /\
  exists s' r,
    process env_quiet (mkJob "constructor" (VObj [])) initial =
      (Return (VObj [("jobId", VStr "job_1700000000000_k3j9x2m1q");
                     ("status", VStr "completed");
                     ("duration", VNum 3);
                     ("result", VObj [])]), s') /\
    getStatus "job_1700000000000_k3j9x2m1q" s' = (Return r, s') /\
    status r = completed /\ failedAt r = None /\ error r = None.
Proof.
  split; [reflexivity|].
  eexists _, _. split; [vm_compute; reflexivity|].
  split; [vm_compute; reflexivity|].
  repeat split.
Qed.

(** The example of the specification for [enrichment.batch]: the call for
    [L2] fails, the one for [L1] answers. *)
Example enrichment_batch_partial_failure :
  exists s',
    process env_quiet (mkJob "enrichment.batch" batch_payload) initial =
      (Return
         (VObj [("jobId", VStr "job_1700000000000_k3j9x2m1q");
                ("status", VStr "completed");
                ("duration", VNum 7);
                ("result",
                 VObj [("processed", VNum 2);
                       ("results",
                        VArr [VObj [("leadId", VStr "L1");
                                    ("status", VStr "enriched");
                                    ("data", VObj [("score", VNum 87)])];
                              VObj [("leadId", VStr "L2");
                                    ("status", VStr "failed");
                                    ("error",
                                     VStr "Request failed with status code 500")]])])]),
       s').
Proof. eexists. vm_compute. reflexivity. Qed.

Lemma wf_initial : wf (jobHistory initial).
Proof. split; [constructor | simpl; unfold MAX_HISTORY; lia]. Defined.

Lemma history_bounded_oldest_evicted_witness :
  reachable (recordJobs (map other_job (seq 0 100)) []) /\
  exists k0 v0 rest,
    recordJobs (map other_job (seq 0 100)) [] = (k0, v0) :: rest /\
    k0 = fst (other_job 0) /\
    recordJob "job_new" (sample_record "job_new" 5)
      (recordJobs (map other_job (seq 0 100)) [])
    = (rest ++ [("job_new", sample_record "job_new" 5)])%list.
Proof.
  assert (Hr : reachable (recordJobs (map other_job (seq 0 100)) [])).
  { apply reachable_recordJobs. constructor. }
  split; [exact Hr|].
  destruct (history_bounded_oldest_evicted _ "job_new"
              (sample_record "job_new" 5) Hr)
    as (_ & _ & _ & _ & Hevict).
  destruct Hevict as (k0 & v0 & rest & Hh & Hrec).
  - apply assoc_None_iff. vm_compute. reflexivity.
  - vm_compute. reflexivity.
  - exists k0, v0, rest. split; [exact Hh|]. split; [|exact Hrec].
    assert (E : Map_first_key (recordJobs (map other_job (seq 0 100)) [])
                = Some (fst (other_job 0))) by (vm_compute; reflexivity).
    rewrite Hh in E. now injection E.
Defined.

Lemma getStatus_absent_not_found_witness :
  ~ In "job_0_gone" (keys (jobHistory initial)) /\
  getStatus "job_0_gone" initial = (Throw (Error "Job not found"), initial).
Proof.
  assert (H : ~ In "job_0_gone" (keys (jobHistory initial))) by (simpl; tauto).
  split; [exact H|]. exact (getStatus_absent_not_found _ _ H).
Defined.

Lemma batch_handlers_count_every_item_witness :
  get_prop batch_payload "leadIds" = Some (VArr [VStr "L1"; VStr "L2"]) /\
  (exists s',
     handleEnrichmentBatch env_quiet batch_payload "job_1" initial =
       (Return
          (VObj [("processed", VNum 2);
                 ("results",
                  VArr [VObj [("leadId", VStr "L1");
                              ("status", VStr "enriched");
                              ("data", VObj [("score", VNum 87)])];
                        VObj [("leadId", VStr "L2");
                              ("status", VStr "failed");
                              ("error",
                               VStr "Request failed with status code 500")]])]),
        s')) /\
  (exists s',
     handleScoringBatch env_quiet batch_payload "job_1" initial =
       (Return
          (VObj [("processed", VNum 2);
                 ("results",
                  VArr [VObj [("leadId", VStr "L1");
                              ("status", VStr "scored");
                              ("score", VNum 87)];
                        VObj [("leadId", VStr "L2");
                              ("status", VStr "failed");
                              ("error",
                               VStr "Request failed with status code 500")]])]),
        s')).
Proof.
  split; [reflexivity|].
  destruct (batch_handlers_count_every_item env_quiet batch_payload "job_1"
              initial [VStr "L1"; VStr "L2"] eq_refl)
    as [(r1 & s1 & Hrun1 & Hlen1 & Hnth1) (r2 & s2 & Hrun2 & Hlen2 & Hnth2)].
  split.
  - exists s1. rewrite Hrun1. do 5 f_equal.
    destruct r1 as [|a [|b [|c r1]]]; try discriminate Hlen1.
    pose proof (Hnth1 0%nat _ eq_refl) as H0.
    pose proof (Hnth1 1%nat _ eq_refl) as H1.
    vm_compute in H0, H1. injection H0 as ->. injection H1 as ->.
    reflexivity.
  - exists s2. rewrite Hrun2. do 5 f_equal.
    destruct r2 as [|a [|b [|c r2]]]; try discriminate Hlen2.
    pose proof (Hnth2 0%nat _ eq_refl) as H0.
    pose proof (Hnth2 1%nat _ eq_refl) as H1.
    vm_compute in H0, H1. injection H0 as ->. injection H1 as ->.
    reflexivity.
Defined.

Lemma batch_handlers_absent_leadIds_witness :
  get_prop (VObj [("tenantId", VStr "T1")]) "leadIds" = Some VUndefined /\
  handleScoringBatch env_quiet (VObj [("tenantId", VStr "T1")]) "job_1" initial
    = (Return (VObj [("processed", VNum 0); ("results", VArr [])]), initial).
Proof.
  split; [reflexivity|].
  exact (proj2 (batch_handlers_absent_leadIds env_quiet
                  (VObj [("tenantId", VStr "T1")]) "job_1" initial
                  (or_introl eq_refl))).
Defined.

(** The example of the specification for [enrichment.single]: the
    downstream call fails. *)
Lemma handler_failure_recorded_then_raised_witness :
  wf (jobHistory initial) /\
  exists s' r,
    process env_quiet (mkJob "enrichment.single" single_payload) initial =
      (Throw (AxiosError "Request failed with status code 500"), s') /\
    getStatus "job_1700000000000_k3j9x2m1q" s' = (Return r, s') /\
    status r = failed /\
    error r = Some "Request failed with status code 500".
Proof.
  split; [exact wf_initial|].
  edestruct (handler_failure_recorded_then_raised env_quiet
               (mkJob "enrichment.single" single_payload) initial)
    as (s' & r & t & Hrun & Hget & _ & Hst & _ & Herr).
  - exact wf_initial.
  - vm_compute. reflexivity.
  - reflexivity.
  - vm_compute. reflexivity.
  - exists s', r. exact (conj Hrun (conj Hget (conj Hst Herr))).
Defined.

Lemma handler_success_recorded_duration_witness :
  wf (jobHistory initial) /\
  exists out s' r t,
    process env_quiet (mkJob "enrichment.batch" batch_payload) initial =
      (Return out, s') /\
    getStatus "job_1700000000000_k3j9x2m1q" s' = (Return r, s') /\
    status r = completed /\ completedAt r = Some t /\
    duration r = Some 7 /\
    result r = Some (VObj [("processed", VNum 2);
                           ("results",
                            VArr [VObj [("leadId", VStr "L1");
                                        ("status", VStr "enriched");
                                        ("data", VObj [("score", VNum 87)])];
                                  VObj [("leadId", VStr "L2");
                                        ("status", VStr "failed");
                                        ("error",
                                         VStr "Request failed with status code 500")]])]).
Proof.
  split; [exact wf_initial|].
  edestruct (handler_success_recorded_duration env_quiet
               (mkJob "enrichment.batch" batch_payload) initial)
    as (out & s' & r & t & Hrun & Hget & _ & Hst & Hat & Hres & Hd & _).
  - exact wf_initial.
  - vm_compute. reflexivity.
  - reflexivity.
  - vm_compute. reflexivity.
  - exists out, s', r, t.
    exact (conj Hrun (conj Hget (conj Hst (conj Hat (conj Hd Hres))))).
Defined.

(** C5 as stated fails: after the clock has been set back while the
    handler ran, the job is [completed] with a negative duration. *)
Lemma duration_negative_after_clock_set_back :
  exists out s' r d,
    process env_clock_back (mkJob "signals.aggregate" (VObj [])) initial =
      (Return out, s') /\
    getStatus "job_1700000000500_k3j9x2m1q" s' = (Return r, s') /\
    status r = completed /\ duration r = Some d /\ d = -495 /\ ~ 0 <= d.
Proof.
  eexists _, _, _, _. split; [vm_compute; reflexivity|].
  split; [vm_compute; reflexivity|].
  split; [reflexivity|]. split; [reflexivity|]. split; [reflexivity|].
  intros H. apply H. reflexivity.
Qed.

Lemma process_returns_completed_reply_witness :
  exists s',
    process env_quiet (mkJob "scoring.batch" batch_payload) initial =
      (Return
         (VObj [("jobId", VStr "job_1700000000000_k3j9x2m1q");
                ("status", VStr "completed");
                ("duration", VNum 7);
                ("result",
                 VObj [("processed", VNum 2);
                       ("results",
                        VArr [scored_entry (VStr "L1") (VNum 87);
                              failed_entry (VStr "L2")
                                "Request failed with status code 500"])])]),
       s').
Proof.
  edestruct (process_returns_completed_reply env_quiet
               (mkJob "scoring.batch" batch_payload) initial)
    as (s' & Hrun & _).
  - vm_compute. reflexivity.
  - reflexivity.
  - vm_compute. reflexivity.
  - exists s'. exact Hrun.
Defined.

(** A hundred other jobs start while the handler of the job at hand is
    suspended: its [processing] record is evicted, the [completed] record
    comes without [startedAt], and its insertion evicts the first of the
    hundred. *)
Lemma terminal_record_startedAt_from_store_witness :
  wf (jobHistory initial) /\
  exists c' s' r k0 rest,
    process env_busy (mkJob "signals.aggregate" (VObj [])) initial = (c', s') /\
    Map_get "job_1700000000000_k3j9x2m1q" (jobHistory s') = Some r /\
    startedAt r = None /\
    k0 = fst (other_job 0) /\
    List.length rest = 99%nat /\
    jobHistory s' = (rest ++ [("job_1700000000000_k3j9x2m1q", r)])%list.
Proof.
  split; [exact wf_initial|].
  edestruct (terminal_record_startedAt_from_store env_busy
               (mkJob "signals.aggregate" (VObj [])) initial)
    as (c' & s' & r & Hrun & _ & Hget & _ & _ & Hgone).
  - exact wf_initial.
  - vm_compute. reflexivity.
  - reflexivity.
  - vm_compute. reflexivity.
  - destruct Hgone as [Hnone Hevict]; [vm_compute; reflexivity|].
    destruct Hevict as (k0 & v0 & rest & Hfull & Hafter);
      [vm_compute; reflexivity|].
    cbn [jobHistory] in Hfull. injection Hfull as Hk _ Hrest.
    exists c', s', r, k0, rest.
    refine (conj Hrun (conj Hget (conj Hnone (conj _ (conj _ Hafter))))).
    + rewrite <- Hk. vm_compute. reflexivity.
    + rewrite <- Hrest. reflexivity.
Defined.



(* ================================================================== *)
(** ** More on the history map *)

Lemma assoc_Some_In {A : Type} (k : string) (l : list (string * A)) (v : A) :
  assoc k l = Some v -> In k (map fst l).
Proof.
  intros H. destruct (in_dec string_dec k (map fst l)) as [Hin|Hnin];
    [exact Hin|].
  apply assoc_None_iff in Hnin. congruence.
Qed.

(** A write leaves the records of the other identifiers as they are,
    except that it can evict the first key of the map, and that only when
    it inserts a new key into a full map. *)
Theorem recordJob_keeps_other_records h k v k' :
  wf h -> k' <> k ->
  Map_get k' (recordJob k v h) = Map_get k' h \/
  (Map_first_key h = Some k' /\ ~ In k (keys h) /\
   List.length h = MAX_HISTORY /\ Map_get k' (recordJob k v h) = None).
Proof.
  intros [Hnd Hlen] Hne.
  destruct (in_dec string_dec k (keys h)) as [Hin|Hnin].
  - left. rewrite (recordJob_overwrite k v h Hlen Hin).
    now apply Map_get_set_other.
  - destruct (Nat.eq_dec (List.length h) MAX_HISTORY) as [Heq|Hneq].
    + destruct (recordJob_evict k v h Heq Hnin) as (k0 & v0 & rest & E & Hrec).
      subst h. rewrite Hrec.
      assert (Hnin' : ~ In k (keys rest)) by (intros H; apply Hnin; now right).
      rewrite <- (Map_set_new k v rest Hnin'), (Map_get_set_other _ _ _ _ Hne).
      unfold Map_get at 2. cbn [assoc].
      destruct (String.eqb_spec k' k0) as [->|Hne0].
      * right. repeat split; try assumption.
        apply assoc_None_iff. unfold keys in Hnd. simpl in Hnd.
        now apply NoDup_cons_iff in Hnd.
      * now left.
    + left. rewrite (recordJob_append k v h); [|lia|exact Hnin].
      rewrite <- (Map_set_new k v h Hnin). now apply Map_get_set_other.
Qed.

Lemma recordJob_keeps_other_records_witness :
  wf (jobHistory four_jobs) /\ "job_a" <> "job_new" /\
  Map_get "job_a" (recordJob "job_new" (sample_record "job_new" 50)
                     (jobHistory four_jobs))
  = Some (sample_record "job_a" 20).
Proof.
  assert (Hwf : wf (jobHistory four_jobs)).
  { split; [|simpl; unfold MAX_HISTORY; lia].
    simpl. repeat (constructor; [simpl; intuition discriminate|]). constructor. }
  assert (Hne : "job_a" <> "job_new") by discriminate.
  split; [exact Hwf|]. split; [exact Hne|].
  destruct (recordJob_keeps_other_records _ "job_new"
              (sample_record "job_new" 50) "job_a" Hwf Hne)
    as [H | (_ & _ & Hfull & _)].
  - rewrite H. reflexivity.
  - discriminate Hfull.
Defined.

Lemma Map_set_app k v (l1 l2 : JsMap) :
  Map_set k v (l1 ++ l2)%list =
    if Map_has k l1 then (Map_set k v l1 ++ l2)%list
    else (l1 ++ Map_set k v l2)%list.
Proof.
  unfold Map_has, Map_get.
  induction l1 as [|[k0 v0] l1 IH]; simpl.
  - reflexivity.
  - destruct (String.eqb k k0); [reflexivity|].
    rewrite IH. now destruct (assoc k l1).
Qed.

Lemma Map_set_length_le k v (m : JsMap) :
  (List.length m <= List.length (Map_set k v m) <= S (List.length m))%nat.
Proof.
  induction m as [|[k0 v0] m IH]; simpl.
  - lia.
  - destruct (String.eqb k k0); simpl; lia.
Qed.

Lemma Map_set_length_prefix k v (m : JsMap) :
  Map_has k m = true -> List.length (Map_set k v m) = List.length m.
Proof. intros H. apply Map_set_length_old. now apply Map_has_true_iff. Qed.

(** A record with at most [n] entries behind it, on a map that has room
    for two more, is still there after a write, with at most [n + 1]
    entries behind it. *)
Lemma recordJob_behind k n h k' v' :
  (exists l1 r l2, h = (l1 ++ (k, r) :: l2)%list /\ (List.length l2 <= n)%nat) ->
  (n + 2 <= MAX_HISTORY)%nat ->
  exists l1 r l2,
    recordJob k' v' h = (l1 ++ (k, r) :: l2)%list /\
    (List.length l2 <= S n)%nat.
Proof.
  intros (l1 & r & l2 & -> & Hl2) Hn.
  assert (Hset : exists l1' r' l2',
            Map_set k' v' (l1 ++ (k, r) :: l2)%list
              = (l1' ++ (k, r') :: l2')%list /\
            List.length l1' = List.length l1 /\
            (List.length l2' <= S n)%nat).
  { rewrite Map_set_app. destruct (Map_has k' l1) eqn:Hhas.
    - exists (Map_set k' v' l1), r, l2. split; [reflexivity|].
      split; [now apply Map_set_length_prefix | lia].
    - cbn [Map_set]. destruct (String.eqb_spec k' k) as [->|Hne].
      + exists l1, v', l2. split; [reflexivity|]. split; [reflexivity | lia].
      + exists l1, r, (Map_set k' v' l2). split; [reflexivity|].
        split; [reflexivity|].
        pose proof (Map_set_length_le k' v' l2). lia. }
  destruct Hset as (l1' & r' & l2' & Hset & Hl1' & Hl2').
  unfold recordJob. rewrite Hset.
  destruct (Nat.ltb_spec MAX_HISTORY (List.length (l1' ++ (k, r') :: l2')%list))
    as [Hover|Hfit].
  - destruct l1' as [|[k0 v0] l1''].
    + rewrite length_app in Hover. simpl in Hover. lia.
    + cbn [app Map_first_key Map_delete]. rewrite String.eqb_refl.
      now exists l1'', r', l2'.
  - now exists l1', r', l2'.
Qed.

Lemma recordJobs_behind k ws : forall n h,
  (exists l1 r l2, h = (l1 ++ (k, r) :: l2)%list /\ (List.length l2 <= n)%nat) ->
  (n + List.length ws < MAX_HISTORY)%nat ->
  exists l1 r l2, recordJobs ws h = (l1 ++ (k, r) :: l2)%list.
Proof.
  induction ws as [|[k' v'] ws IH]; intros n h Hh Hn; simpl in *.
  - destruct Hh as (l1 & r & l2 & -> & _). now exists l1, r, l2.
  - apply (IH (S n)); [|lia].
    apply recordJob_behind; [exact Hh | lia].
Qed.

(** A record inserted under a new key is still in the history after any
    99 further writes, whatever their keys. *)
Theorem new_record_survives_99_writes h k v ws :
  wf h -> ~ In k (keys h) ->
  (List.length ws < MAX_HISTORY)%nat ->
  Map_has k (recordJobs ws (recordJob k v h)) = true.
Proof.
  intros [_ Hlen] Hnin Hws.
  assert (Hstart : exists l1 r l2,
            recordJob k v h = (l1 ++ (k, r) :: l2)%list /\
            (List.length l2 <= 0)%nat).
  { destruct (Nat.eq_dec (List.length h) MAX_HISTORY) as [Heq|Hneq].
    - destruct (recordJob_evict k v h Heq Hnin) as (k0 & v0 & rest & _ & ->).
      now exists rest, v, [].
    - rewrite (recordJob_append k v h); [|lia|exact Hnin].
      now exists h, v, []. }
  destruct (recordJobs_behind k ws 0 _ Hstart) as (l1 & r & l2 & ->); [lia|].
  apply Map_has_true_iff. unfold keys. rewrite map_app. simpl.
  apply in_or_app. right. now left.
Qed.

Lemma new_record_survives_99_writes_witness :
  wf (jobHistory initial) /\
  ~ In "job_kept" (keys (jobHistory initial)) /\
  Map_has "job_kept"
    (recordJobs (map other_job (seq 0 99))
       (recordJob "job_kept" (sample_record "job_kept" 1) (jobHistory initial)))
  = true.
Proof.
  assert (Hnin : ~ In "job_kept" (keys (jobHistory initial))) by (simpl; tauto).
  split; [exact wf_initial|]. split; [exact Hnin|].
  apply (new_record_survives_99_writes _ _ _ _ wf_initial Hnin).
  rewrite length_map, length_seq. unfold MAX_HISTORY. lia.
Defined.

(* ================================================================== *)
(** ** What a computation leaves untouched *)

Section Preservation.

Variable env : Env.
Variable R : State -> State -> Prop.
Hypothesis R_refl : forall s, R s s.
Hypothesis R_trans : forall s1 s2 s3, R s1 s2 -> R s2 s3 -> R s1 s3.
Hypothesis R_next : forall s, R s (next s).
Hypothesis R_yield : preserves R (yield env).

Lemma preserves_ret {A : Type} (a : A) : preserves R (ret a).
Proof. intros s c s' [= <- <-]. apply R_refl. Qed.

Lemma preserves_throw {A : Type} (e : Exn) : preserves R (@throw A e).
Proof. intros s c s' [= <- <-]. apply R_refl. Qed.

Lemma preserves_bind {A B : Type} (m : M A) (k : A -> M B) :
  preserves R m -> (forall a, preserves R (k a)) -> preserves R (bind m k).
Proof.
  intros Hm Hk s c s'. unfold bind.
  destruct (m s) as [[a|e] s1] eqn:E; intros H.
  - eapply R_trans; [exact (Hm _ _ _ E) | exact (Hk a _ _ _ H)].
  - injection H as <- <-. exact (Hm _ _ _ E).
Qed.

Lemma preserves_try_catch {A : Type} (m : M A) (k : Exn -> M A) :
  preserves R m -> (forall e, preserves R (k e)) ->
  preserves R (try_catch m k).
Proof.
  intros Hm Hk s c s'. unfold try_catch.
  destruct (m s) as [[a|e] s1] eqn:E; intros H.
  - injection H as <- <-. exact (Hm _ _ _ E).
  - eapply R_trans; [exact (Hm _ _ _ E) | exact (Hk e _ _ _ H)].
Qed.

Lemma preserves_await {A : Type} (m : M A) :
  preserves R m -> preserves R (await env m).
Proof.
  intros Hm s c s'. unfold await.
  destruct (m s) as [c1 s1] eqn:E. intros [= <- <-].
  eapply R_trans; [exact (Hm _ _ _ E)|].
  apply (R_yield s1 (Return tt)). reflexivity.
Qed.

Lemma preserves_Date_now : preserves R (Date_now env).
Proof. intros s c s' [= <- <-]. apply R_next. Qed.

Lemma preserves_new_Date : preserves R (new_Date_toISOString env).
Proof. exact preserves_Date_now. Qed.

Lemma preserves_random_below n : preserves R (Math_random_below env n).
Proof. intros s c s' [= <- <-]. apply R_next. Qed.

Lemma preserves_random_fixed2 : preserves R (Math_random_fixed2 env).
Proof. intros s c s' [= <- <-]. apply R_next. Qed.

Lemma preserves_destructure v : preserves R (destructure env v).
Proof. destruct v; first [apply preserves_throw | apply preserves_ret]. Qed.

Lemma preserves_for_of v : preserves R (for_of env v).
Proof.
  unfold for_of.
  destruct (iterate v); [apply preserves_ret | apply preserves_throw].
Qed.

Lemma preserves_console_log v : preserves R (console_log env v).
Proof.
  unfold console_log.
  destruct (stringifies v); [apply preserves_ret | apply preserves_throw].
Qed.

End Preservation.

Lemma same_history_refl s : same_history s s.
Proof. reflexivity. Qed.

Lemma same_history_trans s1 s2 s3 :
  same_history s1 s2 -> same_history s2 s3 -> same_history s1 s3.
Proof. unfold same_history. congruence. Qed.

Lemma same_history_next s : same_history s (next s).
Proof. reflexivity. Qed.

Lemma same_history_yield env : quiet env -> preserves same_history (yield env).
Proof.
  intros Hq s c s' [= <- <-]. unfold same_history. simpl. now rewrite Hq.
Qed.

Lemma same_history_axios_post env url body :
  preserves same_history (axios_post env url body).
Proof.
  intros s c s'. unfold axios_post.
  destruct (http env (tick s) url body); intros [= <- <-]; reflexivity.
Qed.

Lemma same_requests_refl s : same_requests s s.
Proof. reflexivity. Qed.

Lemma same_requests_trans s1 s2 s3 :
  same_requests s1 s2 -> same_requests s2 s3 -> same_requests s1 s3.
Proof. unfold same_requests. congruence. Qed.

Lemma same_requests_next s : same_requests s (next s).
Proof. reflexivity. Qed.

Lemma same_requests_yield env : preserves same_requests (yield env).
Proof. intros s c s' [= <- <-]. reflexivity. Qed.

Ltac preserves_side :=
  first
    [ exact same_history_refl | exact same_history_trans
    | exact same_history_next | (apply same_history_yield; assumption)
    | exact same_requests_refl | exact same_requests_trans
    | exact same_requests_next | apply same_requests_yield ].

Ltac preserves_step :=
  first
    [ apply preserves_bind; [ preserves_side | | intros ? ]
    | apply preserves_try_catch; [ preserves_side | | intros ? ]
    | apply preserves_await; [ preserves_side | preserves_side | ]
    | apply preserves_ret; preserves_side
    | apply preserves_throw; preserves_side
    | apply preserves_Date_now; preserves_side
    | apply preserves_new_Date; preserves_side
    | apply preserves_random_below; preserves_side
    | apply preserves_random_fixed2; preserves_side
    | apply preserves_destructure; preserves_side
    | apply preserves_for_of; preserves_side
    | apply preserves_console_log; preserves_side
    | apply same_history_axios_post ].

Ltac preserves_auto := cbv zeta; repeat preserves_step.

Ltac unfold_handlers :=
  unfold handleEnrichmentBatch, handleEnrichmentSingle,
    handleSignalAggregation, handleScheduledPipeline, handleScoringBatch,
    handleOutreachCampaign, handleBackgroundDiscovery, handleStaleCleanup,
    handleExportGeneration, handleAnalyticsAggregation.

Section Sequential.

Variable env : Env.
Hypothesis no_other_job : quiet env.

Lemma same_history_enrichment_loop tenantId leadIds results :
  preserves same_history (enrichment_loop env tenantId leadIds results).
Proof.
  revert results. induction leadIds as [|leadId rest IH]; intros results; simpl.
  - apply preserves_ret; preserves_side.
  - apply preserves_bind; [preserves_side | preserves_auto | intros r; apply IH].
Qed.

Lemma same_history_scoring_loop tenantId vertical leadIds results :
  preserves same_history (scoring_loop env tenantId vertical leadIds results).
Proof.
  revert results. induction leadIds as [|leadId rest IH]; intros results; simpl.
  - apply preserves_ret; preserves_side.
  - apply preserves_bind; [preserves_side | preserves_auto | intros r; apply IH].
Qed.

Lemma same_history_handlers key fn payload jobId :
  assoc key (handlers env) = Some fn ->
  preserves same_history (fn payload jobId).
Proof.
  unfold handlers. cbn [assoc].
  repeat match goal with
         | |- (if ?b then _ else _) = _ -> _ =>
             destruct b;
             [intros [= <-]; unfold_handlers;
              repeat first [ preserves_step
                           | apply same_history_enrichment_loop
                           | apply same_history_scoring_loop ] | ]
         end; discriminate.
Qed.

Lemma same_history_await_call key handler payload jobId :
  handlers_get env key = Some handler ->
  preserves same_history (await_call env handler payload jobId).
Proof.
  intros H. destruct (handlers_get_cases _ _ _ H) as [(fn & -> & Hfn) | ->]; simpl.
  - apply preserves_await; [preserves_side | preserves_side |].
    eapply same_history_handlers; eassumption.
  - destruct (call_inherited env key payload).
    + preserves_auto.
    + preserves_auto.
Qed.

End Sequential.

(* ================================================================== *)
(** ** More on the lifecycle of a job *)

(** The record [process] has written when it enters its [try]. *)
Lemma process_begin_record env job s jobId startTime s0 :
  wf (jobHistory s) ->
  process_begin env job s = (Return (jobId, startTime), s0) ->
  exists r,
    Map_get jobId (jobHistory s0) = Some r /\
    r = {| id := jobId; type := job_type job; status := processing;
           startedAt := Some (clock env (3 + tick s)%nat);
           payload := Some (job_payload job);
           completedAt := None; failedAt := None; duration := None;
           result := None; error := None |} /\
    requests s0 = requests s.
Proof.
  intros Hwf Hbegin. rewrite process_begin_eq in Hbegin.
  injection Hbegin as <- _ <-.
  eexists. cbn [jobHistory requests].
  rewrite Map_get_recordJob_same by exact Hwf.
  repeat split; reflexivity.
Qed.

(** When [process] hands a job to its handler, the job is in the history
    as [processing], with its type, its payload and the time it was started
    at, and no downstream call has been made. *)
Theorem processing_record_visible env job s jobId startTime s0 :
  wf (jobHistory s) ->
  process_begin env job s = (Return (jobId, startTime), s0) ->
  exists r,
    getStatus jobId s0 = (Return r, s0) /\
    id r = jobId /\ type r = job_type job /\ status r = processing /\
    payload r = Some (job_payload job) /\
    startedAt r = Some (clock env (3 + tick s)) /\
    requests s0 = requests s.
Proof.
  intros Hwf Hbegin.
  destruct (process_begin_record _ _ _ _ _ _ Hwf Hbegin) as (r & Hget & -> & Hreq).
  eexists. split; [apply getStatus_present; exact Hget|].
  repeat split; try reflexivity. exact Hreq.
Qed.

Lemma processing_record_visible_witness :
  wf (jobHistory initial) /\
  exists s0 r,
    process_begin env_quiet (mkJob "enrichment.single" single_payload) initial
      = (Return ("job_1700000000000_k3j9x2m1q", 1700000000002), s0) /\
    getStatus "job_1700000000000_k3j9x2m1q" s0 = (Return r, s0) /\
    status r = processing /\ payload r = Some single_payload.
Proof.
  split; [exact wf_initial|].
  edestruct (processing_record_visible env_quiet
               (mkJob "enrichment.single" single_payload) initial)
    as (r & Hget & _ & _ & Hst & Hpay & _).
  - exact wf_initial.
  - vm_compute. reflexivity.
  - eexists _, r.
    exact (conj eq_refl (conj Hget (conj Hst Hpay))).
Defined.




(** With no other job in flight, the terminal record replaces the
    [processing] record in place: it keeps the start time written at the
    beginning, no entry is evicted and no other record changes. *)
Theorem sequential_process_keeps_startedAt env job s jobId startTime s0 :
  quiet env ->
  wf (jobHistory s) ->
  process_begin env job s = (Return (jobId, startTime), s0) ->
  exists c s' r,
    process env job s = (c, s') /\
    Map_get jobId (jobHistory s') = Some r /\
    startedAt r = Some (clock env (3 + tick s)) /\
    jobHistory s' = Map_set jobId r (jobHistory s0).
Proof.
  intros Hq Hwf Hbegin.
  destruct (process_begin_record _ _ _ _ _ _ Hwf Hbegin)
    as (r0 & Hr0 & Hrec & _).
  assert (Hstart : startedAt r0 = Some (clock env (3 + tick s)))
    by (now rewrite Hrec).
  clear Hrec.
  destruct (process_begin_inv _ _ _ _ _ _ Hbegin) as (_ & _ & Hwf0).
  specialize (Hwf0 Hwf).
  assert (Hin : In jobId (keys (jobHistory s0)))
    by (eapply assoc_Some_In; exact Hr0).
  destruct (handlers_get env (job_type job)) as [handler|] eqn:Hget.
  - destruct (await_call env handler (job_payload job) jobId s0)
      as [c s1] eqn:Hcall.
    pose proof (same_history_await_call env Hq _ _ (job_payload job) jobId
                  Hget _ _ _ Hcall) as Hsame.
    unfold same_history in Hsame.
    rewrite (process_settled _ _ _ _ _ _ _ _ _ Hbegin Hget Hcall).
    rewrite Hsame, Hr0, Hstart.
    destruct c as [res|e].
    all: eexists _, _, _; split; [reflexivity|]; cbn [jobHistory].
    all: split; [apply Map_get_recordJob_same; exact Hwf0|].
    all: split; [reflexivity|].
    all: apply recordJob_overwrite; [apply Hwf0 | exact Hin].
  - unfold process, bind at 1. rewrite Hbegin.
    unfold try_catch, process_try. rewrite Hget.
    cbn [throw]. unfold process_catch.
    unfold bind, Date_now, get_startedAt, new_Date_toISOString, Date_now,
      recordJobM, throw.
    cbn [jobHistory set_history next tick]. rewrite Hr0, Hstart.
    eexists _, _, _. split; [reflexivity|]. cbn [jobHistory].
    split; [apply Map_get_recordJob_same; exact Hwf0|].
    split; [reflexivity|].
    apply recordJob_overwrite; [apply Hwf0 | exact Hin].
Qed.

Lemma sequential_process_keeps_startedAt_witness :
  quiet env_quiet /\ wf (jobHistory initial) /\
  exists c s' r,
    process env_quiet (mkJob "enrichment.batch" batch_payload) initial
      = (c, s') /\
    Map_get "job_1700000000000_k3j9x2m1q" (jobHistory s') = Some r /\
    startedAt r = Some 1700000000003.
Proof.
  assert (Hq : quiet env_quiet) by (intros t; reflexivity).
  split; [exact Hq|]. split; [exact wf_initial|].
  edestruct (sequential_process_keeps_startedAt env_quiet
               (mkJob "enrichment.batch" batch_payload) initial)
    as (c & s' & r & Hrun & Hget & Hstart & _).
  - exact Hq.
  - exact wf_initial.
  - vm_compute. reflexivity.
  - exists c, s', r. exact (conj Hrun (conj Hget Hstart)).
Defined.

(* ================================================================== *)
(** ** More on the handlers *)

Lemma destructure_object env payload :
  payload <> VUndefined -> payload <> VNull ->
  destructure env payload = ret payload.
Proof. destruct payload; simpl; intros H1 H2; congruence. Qed.

(** Every handler of the table starts by destructuring its payload: on
    [undefined] or [null] it raises the engine's TypeError at once. *)
Lemma handlers_raise_on_missing_payload env key fn v jobId s :
  assoc key (handlers env) = Some fn ->
  v = VUndefined \/ v = VNull ->
  fn v jobId s = (Throw (TypeError (engine_text env (DestructureNullish v))), s).
Proof.
  intros Hfn Hv. revert Hfn. unfold handlers. cbn [assoc].
  repeat match goal with
         | |- (if ?b then _ else _) = _ -> _ =>
             destruct b;
             [intros [= <-]; destruct Hv as [-> | ->]; reflexivity | ]
         end; discriminate.
Qed.

(** A job of a registered type whose payload is [undefined] or [null]
    fails: [process] raises the TypeError of the destructuring, the job is
    recorded as [failed], and no downstream call is made. *)
Theorem job_without_payload_fails env job s fn :
  wf (jobHistory s) ->
  assoc (job_type job) (handlers env) = Some fn ->
  job_payload job = VUndefined \/ job_payload job = VNull ->
  exists s' r,
    process env job s =
      (Throw (TypeError (engine_text env (DestructureNullish (job_payload job)))),
       s') /\
    getStatus ("job_" ++ Z_to_string (clock env (tick s)) ++ "_"
                      ++ random36 env (S (tick s))) s' = (Return r, s') /\
    status r = failed /\
    error r = Some (engine_text env (DestructureNullish (job_payload job))) /\
    requests s' = requests s.
Proof.
  intros Hwf Hfn Hv.
  pose proof (process_begin_eq env job s) as Hbegin. cbv zeta in Hbegin.
  destruct (process_begin_inv _ _ _ _ _ _ Hbegin) as (_ & _ & Hwf0).
  specialize (Hwf0 Hwf).
  assert (Hget : handlers_get env (job_type job) = Some (Own fn))
    by (unfold handlers_get; now rewrite Hfn).
  match type of Hbegin with
  | _ = (Return (?jobId, _), ?s0) =>
      assert (Hcall : await_call env (Own fn) (job_payload job) jobId s0
                      = (Throw (TypeError
                                  (engine_text env
                                     (DestructureNullish (job_payload job)))),
                         snd (yield env s0)))
        by (cbn [await_call]; unfold await;
            now rewrite (handlers_raise_on_missing_payload _ _ _ _ _ _ Hfn Hv))
  end.
  destruct (steady_await_call _ _ _ (job_payload job) _ Hget _ _ _ Hcall)
    as [_ Hwf1].
  specialize (Hwf1 Hwf0).
  rewrite (process_settled _ _ _ _ _ _ _ _ _ Hbegin Hget Hcall).
  eexists _, _. split; [reflexivity|].
  unfold getStatus. cbn [jobHistory].
  rewrite Map_get_recordJob_same by exact Hwf1.
  repeat split; reflexivity.
Qed.

Lemma job_without_payload_fails_witness :
  wf (jobHistory initial) /\
  exists s' r,
    process env_quiet (mkJob "scoring.batch" VUndefined) initial =
      (Throw (TypeError "Cannot destructure property of undefined or null"),
       s') /\
    getStatus "job_1700000000000_k3j9x2m1q" s' = (Return r, s') /\
    status r = failed /\ requests s' = [].
Proof.
  split; [exact wf_initial|].
  edestruct (job_without_payload_fails env_quiet
               (mkJob "scoring.batch" VUndefined) initial)
    as (s' & r & Hrun & Hget & Hst & _ & Hreq).
  - exact wf_initial.
  - reflexivity.
  - left. reflexivity.
  - exists s', r. exact (conj Hrun (conj Hget (conj Hst Hreq))).
Defined.

(** The calls of the loops: one per lead, in the order of the leads. *)
Lemma enrichment_loop_requests env tenantId leadIds :
  forall acc s, exists c s',
    enrichment_loop env tenantId leadIds acc s = (c, s') /\
    requests s' =
      (requests s ++
       map (fun leadId => ((OS_BASE_URL env ++ "/api/os/enrich")%string,
                           enrich_body leadId tenantId "worker-batch"))
           leadIds)%list.
Proof.
  induction leadIds as [|leadId rest IH]; intros acc s.
  - exists (Return acc), s. split; [reflexivity|]. simpl. now rewrite app_nil_r.
  - cbn [enrichment_loop map].
    unfold bind at 1, try_catch, bind at 1, await, axios_post.
    destruct (http env (tick s) _ _) as [data|msg];
      cbn [ret snd yield message];
      (match goal with
       | |- context [enrichment_loop env tenantId rest ?acc' ?s1] =>
           destruct (IH acc' s1) as (c & s' & Hrun & Hreq); exists c, s'
       end);
      (split; [exact Hrun|]); rewrite Hreq;
      cbn [requests next set_history]; now rewrite <- app_assoc.
Qed.

Lemma scoring_loop_requests env tenantId vertical leadIds :
  forall acc s, exists c s',
    scoring_loop env tenantId vertical leadIds acc s = (c, s') /\
    requests s' =
      (requests s ++
       map (fun leadId => ((OS_BASE_URL env ++ "/api/os/score")%string,
                           score_body leadId tenantId vertical))
           leadIds)%list.
Proof.
  induction leadIds as [|leadId rest IH]; intros acc s.
  - exists (Return acc), s. split; [reflexivity|]. simpl. now rewrite app_nil_r.
  - cbn [scoring_loop map].
    unfold bind at 1, try_catch, bind at 1, await, axios_post.
    destruct (http env (tick s) _ _) as [data|msg];
      cbn [ret snd yield message];
      (match goal with
       | |- context [scoring_loop env tenantId vertical rest ?acc' ?s1] =>
           destruct (IH acc' s1) as (c & s' & Hrun & Hreq); exists c, s'
       end);
      (split; [exact Hrun|]); rewrite Hreq;
      cbn [requests next set_history]; now rewrite <- app_assoc.
Qed.

(** On a payload whose [leadIds] is a list, a batch handler calls the
    downstream service once per lead and no more, in the order of the
    list, each call carrying its lead and the payload's [tenantId] (and
    [vertical], for scoring): a failed call is not repeated. *)
Theorem batch_handlers_one_call_per_lead env payload jobId s leadIds :
  get_prop payload "leadIds" = Some (VArr leadIds) ->
  (exists c s',
     handleEnrichmentBatch env payload jobId s = (c, s') /\
     requests s' =
       (requests s ++
        map (fun leadId =>
               ((OS_BASE_URL env ++ "/api/os/enrich")%string,
                VObj [("leadId", leadId);
                      ("tenantId", get_prop_opt payload "tenantId");
                      ("source", VStr "worker-batch")]))
            leadIds)%list) /\
  (exists c s',
     handleScoringBatch env payload jobId s = (c, s') /\
     requests s' =
       (requests s ++
        map (fun leadId =>
               ((OS_BASE_URL env ++ "/api/os/score")%string,
                VObj [("leadId", leadId);
                      ("tenantId", get_prop_opt payload "tenantId");
                      ("vertical", get_prop_opt payload "vertical");
                      ("source", VStr "worker-batch")]))
            leadIds)%list).
Proof.
  intros Hlist. split.
  - destruct (enrichment_loop_requests env (get_prop_opt payload "tenantId")
                leadIds [] s) as (c & s' & Hrun & Hreq).
    unfold handleEnrichmentBatch.
    rewrite (destructure_defined _ _ _ _ Hlist).
    unfold bind at 1, ret at 1. cbv beta zeta.
    rewrite (get_prop_opt_defined _ _ _ Hlist), or_else_array.
    unfold for_of; cbn [iterate].
    unfold bind at 1, ret at 1. cbv beta iota.
    unfold bind at 1. rewrite Hrun.
    destruct c; eexists _, _; (split; [reflexivity | exact Hreq]).
  - destruct (scoring_loop_requests env (get_prop_opt payload "tenantId")
                (get_prop_opt payload "vertical") leadIds [] s)
      as (c & s' & Hrun & Hreq).
    unfold handleScoringBatch.
    rewrite (destructure_defined _ _ _ _ Hlist).
    unfold bind at 1, ret at 1. cbv beta zeta.
    rewrite (get_prop_opt_defined _ _ _ Hlist), or_else_array.
    unfold for_of; cbn [iterate].
    unfold bind at 1, ret at 1. cbv beta iota.
    unfold bind at 1. rewrite Hrun.
    destruct c; eexists _, _; (split; [reflexivity | exact Hreq]).
Qed.

Lemma batch_handlers_one_call_per_lead_witness :
  get_prop batch_payload "leadIds" = Some (VArr [VStr "L1"; VStr "L2"]) /\
  exists c s',
    handleScoringBatch env_quiet batch_payload "job_1" initial = (c, s') /\
    List.length (requests s') = 2%nat.
Proof.
  split; [reflexivity|].
  destruct (batch_handlers_one_call_per_lead env_quiet batch_payload "job_1"
              initial _ eq_refl) as [_ (c & s' & Hrun & Hreq)].
  exists c, s'. split; [exact Hrun|]. rewrite Hreq. reflexivity.
Defined.



Lemma console_log_returns env v s :
  stringifies v = true -> console_log env v s = (Return tt, s).
Proof. unfold console_log. now intros ->. Qed.

Lemma console_log_raises env v s :
  stringifies v = false ->
  console_log env v s = (Throw (TypeError (engine_text env (NotPrimitive v))), s).
Proof. unfold console_log. now intros ->. Qed.

(** The handlers [enrichment.single], [pipeline.scheduled] and
    [discovery.background] log one field of the payload ([leadId],
    [pipelineId], [query]).  When that field has no string, the handler
    raises the TypeError of the conversion before any downstream call.
    Otherwise it makes one downstream call, with the fields it reads from
    the payload, and settles as the call does: it returns the data of the
    response, or raises the error the call rejected with. *)
Theorem single_call_handlers_settle_as_the_call env payload jobId s :
  payload <> VUndefined -> payload <> VNull ->
  ((stringifies (get_prop_opt payload "leadId") = false ->
    handleEnrichmentSingle env payload jobId s =
      (Throw (TypeError (engine_text env
                           (NotPrimitive (get_prop_opt payload "leadId")))),
       s)) /\
   (stringifies (get_prop_opt payload "leadId") = true ->
    forall url body,
      url = OS_BASE_URL env ++ "/api/os/enrich" ->
      body = VObj [("leadId", get_prop_opt payload "leadId");
                   ("tenantId", get_prop_opt payload "tenantId");
                   ("source", VStr "worker-single")] ->
      exists s',
        handleEnrichmentSingle env payload jobId s =
          (match http env (tick s) url body with
           | inl data => Return data
           | inr msg => Throw (AxiosError msg)
           end, s') /\
        requests s' = (requests s ++ [(url, body)])%list)) /\
  ((stringifies (get_prop_opt payload "pipelineId") = false ->
    handleScheduledPipeline env payload jobId s =
      (Throw (TypeError (engine_text env
                           (NotPrimitive (get_prop_opt payload "pipelineId")))),
       s)) /\
   (stringifies (get_prop_opt payload "pipelineId") = true ->
    forall url body,
      url = OS_BASE_URL env ++ "/api/os/pipeline" ->
      body = VObj [("pipelineId", get_prop_opt payload "pipelineId");
                   ("tenantId", get_prop_opt payload "tenantId");
                   ("config", get_prop_opt payload "config");
                   ("source", VStr "scheduled-worker")] ->
      exists s',
        handleScheduledPipeline env payload jobId s =
          (match http env (tick s) url body with
           | inl data => Return data
           | inr msg => Throw (AxiosError msg)
           end, s') /\
        requests s' = (requests s ++ [(url, body)])%list)) /\
  ((stringifies (get_prop_opt payload "query") = false ->
    handleBackgroundDiscovery env payload jobId s =
      (Throw (TypeError (engine_text env
                           (NotPrimitive (get_prop_opt payload "query")))),
       s)) /\
   (stringifies (get_prop_opt payload "query") = true ->
    forall url body,
      url = OS_BASE_URL env ++ "/api/os/discovery" ->
      body = VObj [("query", get_prop_opt payload "query");
                   ("tenantId", get_prop_opt payload "tenantId");
                   ("sources", get_prop_opt payload "sources");
                   ("background", VBool true)] ->
      exists s',
        handleBackgroundDiscovery env payload jobId s =
          (match http env (tick s) url body with
           | inl data => Return data
           | inr msg => Throw (AxiosError msg)
           end, s') /\
        requests s' = (requests s ++ [(url, body)])%list)).
Proof.
  intros H1 H2.
  pose proof (destructure_object env payload H1 H2) as Hd.
  split; [|split]; (split; [intros Hs | intros Hs url body -> ->]).
  all: unfold handleEnrichmentSingle, handleScheduledPipeline,
         handleBackgroundDiscovery.
  all: rewrite Hd; unfold bind at 1, ret at 1; cbv beta zeta; unfold bind at 1.
  1,3,5: rewrite (console_log_raises env _ s Hs); reflexivity.
  all: rewrite (console_log_returns env _ s Hs); unfold await, axios_post.
  all: destruct (http env (tick s) _ _); eexists; split; reflexivity.
Qed.

Lemma single_call_handlers_settle_as_the_call_witness :
  single_payload <> VUndefined /\ single_payload <> VNull /\
  stringifies (get_prop_opt single_payload "leadId") = true /\
  exists s',
    handleEnrichmentSingle env_quiet single_payload "job_1" initial =
      (Throw (AxiosError "Request failed with status code 500"), s') /\
    List.length (requests s') = 1%nat.
Proof.
  assert (H1 : single_payload <> VUndefined) by discriminate.
  assert (H2 : single_payload <> VNull) by discriminate.
  split; [exact H1|]. split; [exact H2|]. split; [reflexivity|].
  destruct (single_call_handlers_settle_as_the_call env_quiet single_payload
              "job_1" initial H1 H2) as ((_ & Hsingle) & _ & _).
  destruct (Hsingle eq_refl _ _ eq_refl eq_refl) as (s' & Hrun & Hreq).
  exists s'. split; [exact Hrun|]. rewrite Hreq. reflexivity.
Defined.

(** A field that has no string: the handler raises before the call. *)
Example enrichment_single_unprintable_lead :
  handleEnrichmentSingle env_quiet
    (VObj [("leadId", VObj [("toString", VNull)])]) "job_1" initial =
    (Throw (TypeError "Cannot convert object to primitive value"), initial).
Proof. reflexivity. Qed.

(** The five handlers that make up their result ([signals.aggregate],
    [outreach.campaign], [cleanup.stale], [export.generate],
    [analytics.aggregate]) log one field of the payload ([tenantId],
    [campaignId], [olderThan], [exportType], [period]).  When that field
    has no string, the handler raises the TypeError of the conversion and
    leaves the state as it was.  Otherwise it returns, calls nothing
    downstream and is not suspended: the history map is the same when it
    returns. *)
Theorem synthetic_handlers_are_local env payload jobId s fn field :
  payload <> VUndefined -> payload <> VNull ->
  In (fn, field)
     [(handleSignalAggregation env, "tenantId");
      (handleOutreachCampaign env, "campaignId");
      (handleStaleCleanup env, "olderThan");
      (handleExportGeneration env, "exportType");
      (handleAnalyticsAggregation env, "period")] ->
  (stringifies (get_prop_opt payload field) = false ->
   fn payload jobId s =
     (Throw (TypeError (engine_text env
                          (NotPrimitive (get_prop_opt payload field)))), s)) /\
  (stringifies (get_prop_opt payload field) = true ->
   exists v s',
     fn payload jobId s = (Return v, s') /\
     requests s' = requests s /\ jobHistory s' = jobHistory s).
Proof.
  intros H1 H2 Hin.
  pose proof (destructure_object env payload H1 H2) as Hd.
  simpl in Hin.
  repeat (destruct Hin as [[= <- <-] | Hin]); [ | | | | | contradiction].
  all: unfold handleSignalAggregation, handleOutreachCampaign,
         handleStaleCleanup, handleExportGeneration,
         handleAnalyticsAggregation.
  all: rewrite Hd; split; intros Hs.
  all: try eexists _, _.
  all: unfold bind at 1, ret at 1; cbv beta zeta; unfold bind at 1.
  1,3,5,7,9: rewrite (console_log_raises env _ s Hs); reflexivity.
  all: rewrite (console_log_returns env _ s Hs).
  all: split; [reflexivity|]; split; reflexivity.
Qed.

Lemma synthetic_handlers_are_local_witness :
  VObj [("recipients", VArr [VStr "a"; VStr "b"])] <> VUndefined /\
  VObj [("recipients", VArr [VStr "a"; VStr "b"])] <> VNull /\
  stringifies
    (get_prop_opt (VObj [("recipients", VArr [VStr "a"; VStr "b"])])
       "campaignId") = true /\
  exists v s',
    handleOutreachCampaign env_quiet
      (VObj [("recipients", VArr [VStr "a"; VStr "b"])]) "job_1" initial
      = (Return v, s') /\
    get_prop_opt v "recipientsProcessed" = VNum 2 /\
    requests s' = [].
Proof.
  assert (H1 : VObj [("recipients", VArr [VStr "a"; VStr "b"])] <> VUndefined)
    by discriminate.
  assert (H2 : VObj [("recipients", VArr [VStr "a"; VStr "b"])] <> VNull)
    by discriminate.
  split; [exact H1|]. split; [exact H2|]. split; [reflexivity|].
  destruct (synthetic_handlers_are_local env_quiet _ "job_1" initial
              (handleOutreachCampaign env_quiet) "campaignId" H1 H2)
    as (_ & Hreturns).
  - right. left. reflexivity.
  - destruct (Hreturns eq_refl) as (v & s' & Hrun & Hreq & _).
    exists v, s'. split; [exact Hrun|]. split; [|exact Hreq].
    assert (E : fst (handleOutreachCampaign env_quiet
                       (VObj [("recipients", VArr [VStr "a"; VStr "b"])])
                       "job_1" initial)
                = Return (VObj [("campaignId", VUndefined);
                                ("recipientsProcessed", VNum 2);
                                ("status", VStr "queued");
                                ("estimatedDelivery", VIso 1700003600000)]))
      by reflexivity.
    rewrite Hrun in E. injection E as ->. reflexivity.
Defined.

(* ================================================================== *)
(** ** More on the recent jobs *)

Lemma sort_length l : List.length (sort l) = List.length l.
Proof. apply Permutation_length, sort_perm. Qed.

Lemma slice0_length {A : Type} (l : list A) (n : Z) :
  List.length (slice0 l n) = kept n (List.length l).
Proof.
  unfold slice0, kept. rewrite length_firstn.
  destruct (Z.ltb_spec n 0); lia.
Qed.

(** On a history whose records all have a [startedAt], for every limit,
    negative ones and none at all included, [getRecentJobs] changes nothing
    and returns a prefix of the history sorted newest first, so records of
    the history only.  The prefix has [limit] records (10 without a limit)
    when the history has as many; a negative limit [-k] does not give an
    empty list but everything except the last [k] records of the sorted
    history. *)
Theorem getRecentJobs_any_limit limit s :
  Forall has_startedAt (values (jobHistory s)) ->
  exists jobs rest,
    getRecentJobs limit s = (Return jobs, s) /\
    (jobs ++ rest)%list = sort (values (jobHistory s)) /\
    Permutation (jobs ++ rest)%list (values (jobHistory s)) /\
    StronglySorted newer_or_same (jobs ++ rest)%list /\
    (forall r, In r jobs -> In r (values (jobHistory s))) /\
    List.length jobs =
      kept (match limit with Some n => n | None => 10 end)
           (List.length (jobHistory s)).
Proof.
  intros Hall.
  set (n := match limit with Some n => n | None => 10 end).
  set (sorted := sort (values (jobHistory s))).
  assert (Hsplit : exists rest, sorted = (slice0 sorted n ++ rest)%list).
  { unfold slice0. eexists. symmetry. apply firstn_skipn. }
  destruct Hsplit as (rest & Hsplit).
  exists (slice0 sorted n), rest.
  split; [reflexivity|]. split; [now symmetry|].
  rewrite <- Hsplit.
  split; [apply sort_perm|]. split; [now apply sort_sorted|]. split.
  - intros r Hr. apply (Permutation_in _ (sort_perm (values (jobHistory s)))).
    fold sorted. rewrite Hsplit. apply in_or_app. now left.
  - rewrite slice0_length. unfold sorted, values.
    now rewrite sort_length, length_map.
Qed.

Lemma getRecentJobs_any_limit_witness :
  Forall has_startedAt (values (jobHistory four_jobs)) /\
  exists jobs rest,
    getRecentJobs (Some (-1)) four_jobs = (Return jobs, four_jobs) /\
    (jobs ++ rest)%list =
      [sample_record "job_b" 40; sample_record "job_d" 30;
       sample_record "job_a" 20; sample_record "job_c" 10] /\
    List.length jobs = 3%nat.
Proof.
  assert (Hall : Forall has_startedAt (values (jobHistory four_jobs))).
  { repeat (apply Forall_cons; [unfold has_startedAt; simpl; discriminate|]).
    apply Forall_nil. }
  split; [exact Hall|].
  destruct (getRecentJobs_any_limit (Some (-1)) four_jobs Hall)
    as (jobs & rest & Hrun & Hsort & _ & _ & _ & Hlen).
  exists jobs, rest. split; [exact Hrun|]. split; [|exact Hlen].
  rewrite Hsort. reflexivity.
Defined.

Lemma started_at_newer t x y :
  newer y x -> started_at t x = true -> started_at t y = false.
Proof.
  intros (ty & tx & Ey & Ex & Hlt). unfold started_at. rewrite Ex, Ey.
  intros H. apply Z.eqb_eq in H. apply Z.eqb_neq. lia.
Qed.

Lemma insert_filter t x l :
  has_startedAt x -> Forall has_startedAt l ->
  filter (started_at t) (insert x l) = filter (started_at t) (x :: l).
Proof.
  intros Hx. induction l as [|y l IH]; intros Hl.
  - reflexivity.
  - apply Forall_cons_iff in Hl as [Hy Hl]. cbn [insert].
    pose proof (SortCompare_spec x y Hx Hy) as Hcmp.
    destruct (SortCompare x y <=? 0); [reflexivity|].
    cbn [filter]. rewrite (IH Hl). cbn [filter].
    destruct (started_at t x) eqn:Ex; [|reflexivity].
    now rewrite (started_at_newer t x y Hcmp Ex).
Qed.

(** The sort is stable: records started at the same instant stay in the
    order they have in the array sorted. *)
Lemma sort_stable t l :
  Forall has_startedAt l ->
  filter (started_at t) (sort l) = filter (started_at t) l.
Proof.
  induction l as [|x l IH]; intros Hl.
  - reflexivity.
  - apply Forall_cons_iff in Hl as [Hx Hl]. cbn [sort].
    rewrite insert_filter.
    + cbn [filter]. now rewrite (IH Hl).
    + exact Hx.
    + rewrite Forall_forall in *. intros z Hz. apply Hl.
      now apply (Permutation_in _ (sort_perm l)).
Qed.

(** Jobs started at the same instant come out of [getRecentJobs] in the
    order they were inserted into the history, when the limit covers the
    whole history. *)
Theorem getRecentJobs_ties_in_insertion_order limit s t :
  Forall has_startedAt (values (jobHistory s)) ->
  Z.of_nat (List.length (jobHistory s)) <= limit ->
  exists jobs,
    getRecentJobs (Some limit) s = (Return jobs, s) /\
    filter (started_at t) jobs
      = filter (started_at t) (values (jobHistory s)).
Proof.
  intros Hall Hlimit. eexists. split; [reflexivity|].
  rewrite slice0_firstn by lia.
  rewrite firstn_all2.
  - now apply sort_stable.
  - rewrite sort_length. unfold values. rewrite length_map. lia.
Qed.

Lemma getRecentJobs_ties_in_insertion_order_witness :
  Forall has_startedAt (values (jobHistory tied_jobs)) /\
  Z.of_nat (List.length (jobHistory tied_jobs)) <= 10 /\
  getRecentJobs (Some 10) tied_jobs =
    (Return [sample_record "job_z" 9; sample_record "job_x" 7;
             sample_record "job_y" 7], tied_jobs) /\
  filter (started_at 7)
    [sample_record "job_z" 9; sample_record "job_x" 7; sample_record "job_y" 7]
  = [sample_record "job_x" 7; sample_record "job_y" 7].
Proof.
  assert (Hall : Forall has_startedAt (values (jobHistory tied_jobs))).
  { repeat (apply Forall_cons; [unfold has_startedAt; simpl; discriminate|]).
    apply Forall_nil. }
  assert (Hlimit : Z.of_nat (List.length (jobHistory tied_jobs)) <= 10)
    by (simpl; lia).
  split; [exact Hall|]. split; [exact Hlimit|].
  destruct (getRecentJobs_ties_in_insertion_order 10 tied_jobs 7 Hall Hlimit)
    as (jobs & Hrun & Hties).
  assert (E : getRecentJobs (Some 10) tied_jobs =
              (Return [sample_record "job_z" 9; sample_record "job_x" 7;
                       sample_record "job_y" 7], tied_jobs)) by reflexivity.
  split; [exact E|].
  rewrite E in Hrun. injection Hrun as <-. exact Hties.
Defined.

(* ================================================================== *)
(** ** The HTTP routes *)


(** The status route answers 200 with the record when the history holds
    the identifier, and 404 with [Job not found] when it does not; it
    never answers with a server error. *)
Theorem jobs_status_route_200_or_404 env jobId s :
  fst (jobs_status_route env jobId s) =
    match Map_get jobId (jobHistory s) with
    | Some job => mkResponse 200 (JsonJob job)
    | None => mkResponse 404 (error_body "Job not found")
    end.
Proof.
  unfold jobs_status_route, await, getStatus.
  now destruct (Map_get jobId (jobHistory s)).
Qed.

(** The trigger route answers 400 when the body has no job type, or the
    empty string for it, and then runs and records nothing; with a job
    type it answers 200 or 500. *)
Theorem jobs_trigger_route_requires_type env req s :
  (jobType req = None \/ jobType req = Some "" ->
   jobs_trigger_route env req s =
     (mkResponse 400 (error_body "jobType is required"), s)) /\
  (forall t, jobType req = Some t -> t <> "" ->
     code (fst (jobs_trigger_route env req s)) = 200 \/
     code (fst (jobs_trigger_route env req s)) = 500).
Proof.
  split.
  - intros [H|H]; unfold jobs_trigger_route; now rewrite H.
  - intros t Ht Hne. unfold jobs_trigger_route. rewrite Ht.
    apply String.eqb_neq in Hne. rewrite Hne.
    match goal with
    | |- context [match ?m s with _ => _ end] =>
        destruct (m s) as [[res|e] s']
    end; [now left | now right].
Qed.

(** A trigger for a type that the handler lookup finds nothing for is
    answered with 500 and an error that names the type. *)
Theorem jobs_trigger_route_unknown_type env req s t :
  jobType req = Some t -> t <> "" ->
  handlers_get env t = None ->
  fst (jobs_trigger_route env req s) =
    mkResponse 500 (error_body ("Unknown job type: " ++ t)).
Proof.
  intros Ht Hne Hget. unfold jobs_trigger_route. rewrite Ht.
  apply String.eqb_neq in Hne. rewrite Hne.
  unfold bind at 1, new_Date_toISOString, Date_now, await.
  unfold process, bind at 1. rewrite process_begin_eq.
  unfold try_catch, process_try. cbn [job_type]. rewrite Hget.
  reflexivity.
Qed.

Lemma jobs_trigger_route_unknown_type_witness :
  jobType (mkTriggerBody (Some "nope") VUndefined) = Some "nope" /\
  "nope" <> "" /\ handlers_get env_quiet "nope" = None /\
  fst (jobs_trigger_route env_quiet (mkTriggerBody (Some "nope") VUndefined)
         initial)
  = mkResponse 500 (error_body "Unknown job type: nope").
Proof.
  assert (Hne : "nope" <> "") by discriminate.
  split; [reflexivity|]. split; [exact Hne|]. split; [reflexivity|].
  exact (jobs_trigger_route_unknown_type env_quiet
           (mkTriggerBody (Some "nope") VUndefined) initial "nope"
           eq_refl Hne eq_refl).
Defined.

(** A trigger of a batch type whose body has no payload (or a payload
    that is false in a condition) runs the job on [{}]: it is answered with
    200, the job's result is [{processed: 0, results: []}], and no
    downstream call is made. *)
Theorem jobs_trigger_route_batch_without_payload env req s :
  truthy (trigger_payload req) = false ->
  jobType req = Some "enrichment.batch" \/ jobType req = Some "scoring.batch" ->
  exists jobId d s',
    jobs_trigger_route env req s =
      (mkResponse 200
         (JsonValue
            (VObj [("success", VBool true);
                   ("result",
                    VObj [("jobId", VStr jobId);
                          ("status", VStr "completed");
                          ("duration", VNum d);
                          ("result", VObj [("processed", VNum 0);
                                           ("results", VArr [])])])])),
       s') /\
    requests s' = requests s.
Proof.
  intros Hfalsy Htype. unfold jobs_trigger_route.
  assert (Hpay : or_else (trigger_payload req) (VObj []) = VObj [])
    by (unfold or_else; now rewrite Hfalsy).
  rewrite Hpay.
  destruct Htype as [-> | ->]; cbn [String.eqb Ascii.eqb Bool.eqb];
    unfold bind at 1, new_Date_toISOString, Date_now, await at 1.
  - pose proof (process_begin_eq env (mkJob "enrichment.batch" (VObj []))
                  (next s)) as Hbegin.
    cbv zeta in Hbegin.
    erewrite (process_settled _ _ _ _ _ _
                (Own (handleEnrichmentBatch env)) (Return (batch_result []))
                _ Hbegin eq_refl eq_refl).
    eexists _, _, _. split; reflexivity.
  - pose proof (process_begin_eq env (mkJob "scoring.batch" (VObj []))
                  (next s)) as Hbegin.
    cbv zeta in Hbegin.
    erewrite (process_settled _ _ _ _ _ _
                (Own (handleScoringBatch env)) (Return (batch_result []))
                _ Hbegin eq_refl eq_refl).
    eexists _, _, _. split; reflexivity.
Qed.

Lemma jobs_trigger_route_batch_without_payload_witness :
  truthy VUndefined = false /\
  exists s',
    jobs_trigger_route env_quiet
      (mkTriggerBody (Some "enrichment.batch") VUndefined) initial =
      (mkResponse 200
         (JsonValue
            (VObj [("success", VBool true);
                   ("result",
                    VObj [("jobId", VStr "job_1700000000001_k3j9x2m1q");
                          ("status", VStr "completed");
                          ("duration", VNum 3);
                          ("result", VObj [("processed", VNum 0);
                                           ("results", VArr [])])])])),
       s') /\
    requests s' = [].
Proof.
  split; [reflexivity|].
  destruct (jobs_trigger_route_batch_without_payload env_quiet
              (mkTriggerBody (Some "enrichment.batch") VUndefined) initial
              eq_refl (or_introl eq_refl))
    as (jobId & d & s' & Hrun & Hreq).
  exists s'. split; [|exact Hreq].
  assert (E : fst (jobs_trigger_route env_quiet
                     (mkTriggerBody (Some "enrichment.batch") VUndefined)
                     initial)
              = mkResponse 200
                  (JsonValue
                     (VObj [("success", VBool true);
                            ("result",
                             VObj [("jobId", VStr "job_1700000000001_k3j9x2m1q");
                                   ("status", VStr "completed");
                                   ("duration", VNum 3);
                                   ("result", VObj [("processed", VNum 0);
                                                    ("results", VArr [])])])])))
    by (vm_compute; reflexivity).
  rewrite Hrun in E |- *. cbn [fst] in E. now rewrite E.
Defined.



(** The recent-jobs route always answers 200, with what [getRecentJobs]
    returns for the limit; a limit that is not a number, and the limit 0,
    are served as the limit 10. *)
Theorem jobs_recent_route_limit env parsed s :
  exists jobs,
    fst (jobs_recent_route env parsed s) = mkResponse 200 (JsonJobs jobs) /\
    (parsed = None \/ parsed = Some 0 ->
       getRecentJobs None s = (Return jobs, s)) /\
    (forall n, parsed = Some n -> n <> 0 ->
       getRecentJobs (Some n) s = (Return jobs, s)).
Proof.
  unfold jobs_recent_route, await. cbn [getRecentJobs fst].
  eexists. split; [reflexivity|]. split.
  - intros [-> | ->]; reflexivity.
  - intros n -> Hn. apply Z.eqb_neq in Hn. now rewrite Hn.
Qed.

(* ================================================================== *)
(** ** The health check *)

(** The health route always answers, and its answer turns on the call to
    the downstream health endpoint alone: 200 with [healthy] and the status
    [ok] when the call is answered, whatever the answer says, and 503 with
    the status [degraded] when the call fails.  The downstream check itself
    is [healthy] only for an answer whose [status] is the string [ok],
    [degraded] for any other answer, and [unhealthy] with the error's
    message for a failed call.  The memory readings change none of this. *)
Theorem health_route_reflects_downstream env rt s :
  exists report s',
    health_route env rt s =
      (Some (mkResponse
               (match Health.http_get rt (tick s) (OS_BASE_URL env ++ "/health")
                with inl _ => 200 | inr _ => 503 end)
               (JsonHealth report)), s') /\
    Health.healthy report =
      (match Health.http_get rt (tick s) (OS_BASE_URL env ++ "/health")
       with inl _ => true | inr _ => false end) /\
    Health.status report =
      (match Health.http_get rt (tick s) (OS_BASE_URL env ++ "/health")
       with inl _ => "ok" | inr _ => "degraded" end) /\
    Health.os (Health.checks report) =
      (match Health.http_get rt (tick s) (OS_BASE_URL env ++ "/health")
       with
       | inl data =>
           Health.mkOsCheck
             (if Health.status_is_ok data then "healthy" else "degraded")
             true None
       | inr msg => Health.mkOsCheck "unhealthy" false (Some msg)
       end).
Proof.
  unfold health_route, await at 1, Health.healthCheck.
  unfold bind at 1, try_catch, bind at 1, await, Health.axios_get.
  destruct (Health.http_get rt (tick s) (OS_BASE_URL env ++ "/health"))
    as [data|msg].
  - cbn [ret snd yield]. destruct (Health.status_is_ok data);
      eexists _, _; repeat split; reflexivity.
  - cbn [ret snd yield message]. eexists _, _; repeat split; reflexivity.
Qed.

(** A downstream health endpoint that answers with a status other than
    [ok]: the check of it is [degraded], the report's status is [ok]. *)
Example health_degraded_downstream_is_ok :
  exists report s',
    health_route env_quiet runtime_degraded initial =
      (Some (mkResponse 200 (JsonHealth report)), s') /\
    Health.status report = "ok" /\
    Health.os_status (Health.os (Health.checks report)) = "degraded" /\
    Health.memory_status (Health.memory (Health.checks report)) = "healthy".
Proof. eexists _, _. repeat split; vm_compute; reflexivity. Qed.

Lemma process_unknown_type_witness :
  wf (jobHistory initial) /\
  handlers_get env_quiet "signals.agregate" = None /\
  exists s' r,
    process env_quiet (mkJob "signals.agregate" (VObj [])) initial =
      (Throw (Error "Unknown job type: signals.agregate"), s') /\
    getStatus "job_1700000000000_k3j9x2m1q" s' = (Return r, s') /\
    status r = failed.
Proof.
  split; [exact wf_initial|]. split; [reflexivity|].
  edestruct (process_unknown_type env_quiet
               (mkJob "signals.agregate" (VObj [])) initial)
    as (s' & r & t & d & Hrun & Hget & Hst & _).
  - exact wf_initial.
  - vm_compute. reflexivity.
  - reflexivity.
  - exists s', r. exact (conj Hrun (conj Hget Hst)).
Defined.
